(** * The UVM assembler (variant 14): a shallow embedding and its properties

    The development follows [assembler.py]: the text primitives of Python's
    [str] that [Assembler.parse_csv] relies on, [struct.pack], the [Command]
    record with [Command.to_bytes], the [Assembler] object with [parse_csv]
    and [assemble_to_bytes], and the part of [main] that decides whether a
    binary is written.  The two encoders of the second variant,
    [assemly.py], are embedded in [Module Assemly] for comparison, and the
    other methods of its class in [Module AssemlyAssembler].

    Modelling conventions.
    - A Python [str] is a [string]; an [ascii] stands for the code point of
      the same number, so texts range over the code points below 256.  The
      classification of characters (white space, line boundaries, case,
      decimal digits) is Python's for those code points.
    - A Python [int] is a [Z]; [bytes] are a [list Z] of values below 256.
    - A [dict] with [str] keys is a [gmap string Z].
    - An exception is a value of [exn]; a call that may raise returns a
      [result].
    - The entries of [Assembler.errors] are f-strings with Cyrillic text;
      an entry is represented by the constructor of [Error] for its f-string
      together with the interpolated values. *)

From Stdlib Require Import ZArith NArith Ascii String List Bool Lia.
From stdpp Require Import base option list gmap strings.

Import ListNotations.
Local Open Scope string_scope.
Local Open Scope Z_scope.
Local Open Scope list_scope.

(** ** Python's [str] on code points below 256 *)

Module Str.

Definition code (c : ascii) : N := N_of_ascii c.

Definition between (lo hi n : N) : bool := ((lo <=? n) && (n <=? hi))%N.

(** [str.isspace] for one character: U+0009..U+000D, U+001C..U+0020,
    U+0085 and U+00A0.  This is the set [str.strip] removes. *)
Definition isspace (c : ascii) : bool :=
  between 9 13 (code c) || between 28 32 (code c)
  || (code c =? 133)%N || (code c =? 160)%N.

(** The line boundaries of [str.splitlines]: LF, VT, FF, CR, FS, GS, RS
    and NEL (CR LF counts as one boundary, see [splitlines]). *)
Definition is_linebreak (c : ascii) : bool :=
  between 10 13 (code c) || between 28 30 (code c) || (code c =? 133)%N.

Definition is_cr (c : ascii) : bool := (code c =? 13)%N.
Definition is_lf (c : ascii) : bool := (code c =? 10)%N.

(** [str.lower] for one character: A..Z and the Latin-1 capitals
    U+00C0..U+00DE (but not the multiplication sign U+00D7) move up by
    32; every other code point below 256 is unchanged. *)
Definition lower_char (c : ascii) : ascii :=
  if between 65 90 (code c)
     || (between 192 222 (code c) && negb (code c =? 215)%N)
  then ascii_of_N (code c + 32)
  else c.

Fixpoint lower (s : string) : string :=
  match s with
  | EmptyString => EmptyString
  | String c s' => String (lower_char c) (lower s')
  end.

Fixpoint lstrip (s : string) : string :=
  match s with
  | EmptyString => EmptyString
  | String c s' => if isspace c then lstrip s' else s
  end.

Fixpoint rstrip (s : string) : string :=
  match s with
  | EmptyString => EmptyString
  | String c s' =>
      match rstrip s' with
      | EmptyString => if isspace c then EmptyString else String c EmptyString
      | r => String c r
      end
  end.

Definition strip (s : string) : string := rstrip (lstrip s).

(** [s.startswith(c)] for a one-character prefix. *)
Definition startswith (s : string) (c : ascii) : bool :=
  match s with
  | EmptyString => false
  | String d _ => Ascii.eqb d c
  end.

(** Puts [c] in front of the first line of [ls]. *)
Definition cons_line (c : ascii) (ls : list string) : list string :=
  match ls with
  | [] => [String c EmptyString]
  | l :: ls' => String c l :: ls'
  end.

(** [str.splitlines()]: the lines without their boundaries; a boundary at
    the very end does not open a further line, and the empty text has no
    lines. *)
Fixpoint splitlines (s : string) : list string :=
  match s with
  | EmptyString => []
  | String c s' =>
      if is_linebreak c then
        EmptyString ::
          (if is_cr c then
             match s' with
             | String d s'' => if is_lf d then splitlines s'' else splitlines s'
             | EmptyString => []
             end
           else splitlines s')
      else cons_line c (splitlines s')
  end.

(** [s.split(sep)] for a one-character separator: never the empty list. *)
Fixpoint split (s : string) (sep : ascii) : list string :=
  match s with
  | EmptyString => [EmptyString]
  | String c s' =>
      if Ascii.eqb c sep then EmptyString :: split s' sep
      else cons_line c (split s' sep)
  end.

Definition is_digit (c : ascii) : bool := between 48 57 (code c).

Definition digit_value (c : ascii) : Z := Z.of_N (code c) - 48.

(** The digits of an integer literal after its first digit: digits, with
    single underscores allowed between two digits. *)
Fixpoint int_digits (s : string) (acc : Z) : option Z :=
  match s with
  | EmptyString => Some acc
  | String c s' =>
      if is_digit c then int_digits s' (10 * acc + digit_value c)
      else if Ascii.eqb c "_" then
        match s' with
        | String d s'' =>
            if is_digit d then int_digits s'' (10 * acc + digit_value d)
            else None
        | EmptyString => None
        end
      else None
  end.

Definition int_unsigned (s : string) : option Z :=
  match s with
  | String c s' => if is_digit c then int_digits s' (digit_value c) else None
  | EmptyString => None
  end.

(** [int(s)] in base 10 for a text without surrounding white space (its
    callers strip the argument): an optional sign and an unsigned literal.
    [None] stands for the [ValueError] that [int] raises.  The interpreter's
    limit on the number of digits is not modelled. *)
Definition int (s : string) : option Z :=
  match s with
  | String c s' =>
      if Ascii.eqb c "+" then int_unsigned s'
      else if Ascii.eqb c "-" then Z.opp <$> int_unsigned s'
      else int_unsigned s
  | EmptyString => None
  end.

End Str.

(** ** Exceptions and results *)

(** The exceptions the modelled code can raise outside of [parse_csv]'s own
    handlers. *)
Inductive exn :=
| UnknownOpcode (opcode : Z)  (* ValueError(f"Неизвестный опкод: {opcode}") *)
| KeyError (key : string)     (* [d[key]] on a dict without [key] *)
| StructError.                (* struct.error: argument out of range or
                                 wrong number of arguments *)

Inductive result (A : Type) :=
| Ok (a : A)
| Raise (e : exn).
Arguments Ok {A} a.
Arguments Raise {A} e.

Definition bind {A B} (r : result A) (k : A -> result B) : result B :=
  match r with
  | Ok a => k a
  | Raise e => Raise e
  end.

Notation "'let*' x ':=' r 'in' k" := (bind r (fun x => k))
  (at level 10, x name, r at level 100, k at level 200).

(** [d[key]] *)
Definition getitem (d : gmap string Z) (key : string) : result Z :=
  match d !! key with
  | Some v => Ok v
  | None => Raise (KeyError key)
  end.

(** ** [struct.pack] *)

Module Struct.

(** The byte order character of a format: ['<'] or ['>']. *)
Inductive order := Little | Big.

(** The format characters in use: [B] unsigned char, [H] unsigned short,
    [I] unsigned int, with their standard sizes 1, 2 and 4. *)
Inductive fmt := B | H | I.

Definition size (c : fmt) : nat :=
  match c with
  | B => 1
  | H => 2
  | I => 4
  end.

(** The [n] low bytes of [x], least significant first. *)
Fixpoint le_bytes (n : nat) (x : Z) : list Z :=
  match n with
  | O => []
  | S n' => x mod 256 :: le_bytes n' (x / 256)
  end.

Definition field (o : order) (c : fmt) (x : Z) : list Z :=
  match o with
  | Little => le_bytes (size c) x
  | Big => rev (le_bytes (size c) x)
  end.

(** [struct.pack(o + cs, *args)].  With a byte order character there is no
    padding; each argument must fit its field. *)
Fixpoint pack (o : order) (cs : list fmt) (args : list Z) : result (list Z) :=
  match cs, args with
  | [], [] => Ok []
  | c :: cs', x :: args' =>
      if (0 <=? x) && (x <? 256 ^ Z.of_nat (size c)) then
        let* rest := pack o cs' args' in Ok (field o c x ++ rest)
      else Raise StructError
  | _, _ => Raise StructError
  end.

(** Reads bytes as an unsigned integer, least significant byte first. *)
Fixpoint le_decode (bs : list Z) : Z :=
  match bs with
  | [] => 0
  | b :: bs' => b + 256 * le_decode bs'
  end.

End Struct.

(** ** [CommandType] and [Command] *)

Inductive CommandType := LOAD_CONST | READ_MEM | WRITE_MEM | BIN_OP.

Definition value (t : CommandType) : Z :=
  match t with
  | LOAD_CONST => 231
  | READ_MEM => 61
  | WRITE_MEM => 125
  | BIN_OP => 145
  end.

Record Command := mkCommand {
  opcode : Z;
  name : string;
  fields : gmap string Z
}.

(** [Command.to_bytes], with [struct] as imported when the file is run as a
    script.  The format ['B'] of the last branch has no byte order
    character; for a single unsigned char that changes nothing. *)
Definition to_bytes (self : Command) : result (list Z) :=
  if opcode self =? value LOAD_CONST then
    let* const := getitem (fields self) "const" in
    Struct.pack Struct.Little [Struct.B; Struct.I]
      [opcode self; Z.land const 0x1FFFFF]
  else if opcode self =? value READ_MEM then
    let* offset := getitem (fields self) "offset" in
    Struct.pack Struct.Little [Struct.B; Struct.H]
      [opcode self; Z.land offset 0x1FFF]
  else if opcode self =? value WRITE_MEM then
    let* address := getitem (fields self) "address" in
    Struct.pack Struct.Little [Struct.B; Struct.H]
      [opcode self; Z.land address 0x1FFF]
  else if opcode self =? value BIN_OP then
    Struct.pack Struct.Little [Struct.B] [opcode self]
  else Raise (UnknownOpcode (opcode self)).

(** ** [Assembler] *)

(** What a [ValueError] raised inside the [try] of [parse_csv] says. *)
Inductive ValueError :=
| NoConst                     (* "Не указана константа" *)
| NoOffset                    (* "Не указано смещение" *)
| NoAddress                   (* "Не указан адрес" *)
| InvalidLiteral (s : string) (* raised by [int(s)] *)
| ConstRange (const : Z)      (* f"Константа {const} выходит за допустимый
                                 диапазон (0-{0x1FFFFF})" *)
| OffsetRange (offset : Z)    (* f"Смещение {offset} выходит за допустимый
                                 диапазон (0-{0x1FFF})" *)
| AddressRange (address : Z). (* f"Адрес {address} выходит за допустимый
                                 диапазон (0-{0x1FFF})" *)

(** An entry of [Assembler.errors]. *)
Inductive Error :=
| UnknownCommand (line_num : nat) (mnemonic : string)
    (* f"Строка {line_num}: Неизвестная команда '{mnemonic}'" *)
| ArgumentError (line_num : nat) (e : ValueError)
    (* f"Строка {line_num}: Ошибка в аргументах - {str(e)}" *)
| UnsupportedOpcode (line_num : nat) (opcode : Z).
    (* f"Строка {line_num}: Неподдерживаемый опкод {opcode}" *)

Record Assembler := mkAssembler {
  commands : list Command;
  errors : list Error
}.

(** [Assembler.__init__] *)
Definition init : Assembler := {| commands := []; errors := [] |}.

Definition MNEMONICS : gmap string Z :=
  <["load" := value LOAD_CONST]>
  (<["read" := value READ_MEM]>
  (<["write" := value WRITE_MEM]>
  (<["rotr" := value BIN_OP]> ∅))).

(** What one turn of the loop of [parse_csv] does with its line. *)
Inductive outcome :=
| Skipped                 (* [continue] without an entry *)
| Parsed (cmd : Command)  (* [self.commands.append(cmd)] *)
| Failed (e : Error).     (* [self.errors.append(...)] *)

Definition is_empty (s : string) : bool :=
  match s with
  | EmptyString => true
  | String _ _ => false
  end.

(** The [try] statement of the loop body: from [opcode] and the cells of the
    line to the command, or to the entry written by the handler.  The test
    [len(row) < 2 or not row[1]] is the lookup [row !! 1] followed by the
    emptiness test. *)
Definition parse_operation (line_num : nat) (opcode : Z) (row : list string)
  : outcome :=
  let tried : ValueError + outcome :=
    if opcode =? value LOAD_CONST then
      match row !! 1%nat with
      | None => inl NoConst
      | Some r1 =>
          if is_empty r1 then inl NoConst else
          match Str.int (Str.strip r1) with
          | None => inl (InvalidLiteral (Str.strip r1))
          | Some const =>
              if (const <? 0) || (const >? 0x1FFFFF) then inl (ConstRange const)
              else inr (Parsed (mkCommand opcode "load_const" {["const" := const]}))
          end
      end
    else if opcode =? value READ_MEM then
      match row !! 1%nat with
      | None => inl NoOffset
      | Some r1 =>
          if is_empty r1 then inl NoOffset else
          match Str.int (Str.strip r1) with
          | None => inl (InvalidLiteral (Str.strip r1))
          | Some offset =>
              if (offset <? 0) || (offset >? 0x1FFF) then inl (OffsetRange offset)
              else inr (Parsed (mkCommand opcode "read_mem" {["offset" := offset]}))
          end
      end
    else if opcode =? value WRITE_MEM then
      match row !! 1%nat with
      | None => inl NoAddress
      | Some r1 =>
          if is_empty r1 then inl NoAddress else
          match Str.int (Str.strip r1) with
          | None => inl (InvalidLiteral (Str.strip r1))
          | Some address =>
              if (address <? 0) || (address >? 0x1FFF) then inl (AddressRange address)
              else inr (Parsed (mkCommand opcode "write_mem" {["address" := address]}))
          end
      end
    else if opcode =? value BIN_OP then
      inr (Parsed (mkCommand opcode "bin_op_rotr" ∅))
    else inr (Failed (UnsupportedOpcode line_num opcode))
  in
  match tried with
  | inr o => o
  | inl e => Failed (ArgumentError line_num e)
  end.

(** The loop body from [if not row or not row[0]] on. *)
Definition parse_row (line_num : nat) (row : list string) : outcome :=
  match row with
  | [] => Skipped
  | r0 :: _ =>
      if is_empty r0 then Skipped else
      let mnemonic := Str.lower r0 in
      match MNEMONICS !! mnemonic with
      | None => Failed (UnknownCommand line_num mnemonic)
      | Some opcode => parse_operation line_num opcode row
      end
  end.

(** The head of the loop body: the stripped line is skipped when it is empty
    or a comment, and is cut into stripped cells otherwise. *)
Definition line_row (line : string) : option (list string) :=
  let line := Str.strip line in
  if is_empty line then None
  else if Str.startswith line "#" then None
  else Some (Str.strip <$> Str.split line ",").

(** The whole loop body. *)
Definition parse_line (line_num : nat) (line : string) : outcome :=
  match line_row line with
  | None => Skipped
  | Some row => parse_row line_num row
  end.

(** The effect of one turn of the loop on the object. *)
Definition record (self : Assembler) (o : outcome) : Assembler :=
  match o with
  | Skipped => self
  | Parsed cmd => {| commands := commands self ++ [cmd]; errors := errors self |}
  | Failed e => {| commands := commands self; errors := errors self ++ [e] |}
  end.

(** [enumerate(lines, start)] *)
Fixpoint enumerate {A} (l : list A) (start : nat) : list (nat * A) :=
  match l with
  | [] => []
  | x :: l' => (start, x) :: enumerate l' (S start)
  end.

(** [Assembler.parse_csv]: the returned flag and the object afterwards.
    Nothing in the outer [try] raises, so its handler is not modelled. *)
Definition parse_csv (self : Assembler) (csv_content : string)
  : bool * Assembler :=
  let self := {| commands := []; errors := errors self |} in
  let self := {| commands := commands self; errors := [] |} in
  let lines := Str.splitlines (Str.strip csv_content) in
  let self :=
    fold_left (fun self '(line_num, line) => record self (parse_line line_num line))
      (enumerate lines 1) self in
  (Nat.eqb (length (errors self)) 0, self).

(** [Assembler.assemble_to_bytes] *)
Definition assemble_to_bytes (self : Assembler) : result (list Z) :=
  fold_left
    (fun binary_data cmd =>
       let* data := binary_data in let* encoded := to_bytes cmd in Ok (data ++ encoded))
    (commands self) (Ok []).

(** What a run of [main] on the text of the input file ends with. *)
Inductive Run :=
| Exit1 (printed : list Error) (* the errors are printed, [sys.exit(1)];
                                  the output file is not opened *)
| Written (binary_data : list Z)
| Critical (e : exn).          (* "Критическая ошибка", [sys.exit(1)] *)

(** [main] between reading the input file and writing the output file
    (without [--test], which only prints). *)
Definition main (csv_content : string) : Run :=
  let '(ok, assembler) := parse_csv init csv_content in
  if negb ok then Exit1 (errors assembler)
  else
    match assemble_to_bytes assembler with
    | Ok binary_data => Written binary_data
    | Raise e => Critical e
    end.

(** ** The encoders of the second variant, [assemly.py] *)

Module Assemly.

(** [Assembler.encode_load_const]: a fixed answer for the pair (231, 147),
    otherwise the first four bytes of the big-endian packing. *)
Definition encode_load_const (opcode operand : Z) : result (list Z) :=
  if (opcode =? 231) && (operand =? 147) then Ok [0xE7; 0x00; 0x00; 0x93]
  else
    let* packed := Struct.pack Struct.Big [Struct.B; Struct.I] [opcode; operand] in
    Ok (take 4 packed).

(** [Assembler.encode_mem_access] *)
Definition encode_mem_access (opcode operand : Z) : result (list Z) :=
  if (opcode =? 61) && (operand =? 95) then Ok [0x3D; 0x00; 0x5F]
  else if (opcode =? 125) && (operand =? 242) then Ok [0x7D; 0x00; 0xF2]
  else
    let* packed := Struct.pack Struct.Big [Struct.B; Struct.H] [opcode; operand] in
    Ok (take 3 packed).

End Assemly.

(** ** Vocabulary for the statements *)

(** The error kinds of the specification.  [kind] reads an entry of
    [Assembler.errors] as one of them, by the message it carries. *)
Inductive ErrorKind :=
| UnknownMnemonic
| MissingOperand
| InvalidOperand
| OperandOutOfRange
| Unsupported.

Definition kind (e : Error) : ErrorKind :=
  match e with
  | UnknownCommand _ _ => UnknownMnemonic
  | ArgumentError _ NoConst => MissingOperand
  | ArgumentError _ NoOffset => MissingOperand
  | ArgumentError _ NoAddress => MissingOperand
  | ArgumentError _ (InvalidLiteral _) => InvalidOperand
  | ArgumentError _ (ConstRange _) => OperandOutOfRange
  | ArgumentError _ (OffsetRange _) => OperandOutOfRange
  | ArgumentError _ (AddressRange _) => OperandOutOfRange
  | UnsupportedOpcode _ _ => Unsupported
  end.

(** The line number an entry is tagged with. *)
Definition line_of (e : Error) : nat :=
  match e with
  | UnknownCommand n _ => n
  | ArgumentError n _ => n
  | UnsupportedOpcode n _ => n
  end.

(** A blank line or a comment line: empty after stripping, or starting
    with [#] after stripping. *)
Definition blank_or_comment (line : string) : bool :=
  is_empty (Str.strip line) || Str.startswith (Str.strip line) "#".

Definition parsed (o : outcome) : option Command :=
  match o with
  | Parsed cmd => Some cmd
  | _ => None
  end.

Definition failed (o : outcome) : option Error :=
  match o with
  | Failed e => Some e
  | _ => None
  end.

(** The outcomes of the turns of the loop over numbered lines. *)
Definition outcomes (numbered : list (nat * string)) : list outcome :=
  (fun '(line_num, line) => parse_line line_num line) <$> numbered.

(** The commands the parser builds: an operand within the range of its
    opcode under the key of its opcode, or no operand for [BIN_OP]. *)
Inductive well_formed : Command -> Prop :=
| wf_load_const (const : Z) :
    0 <= const <= 0x1FFFFF ->
    well_formed (mkCommand (value LOAD_CONST) "load_const" {["const" := const]})
| wf_read_mem (offset : Z) :
    0 <= offset <= 0x1FFF ->
    well_formed (mkCommand (value READ_MEM) "read_mem" {["offset" := offset]})
| wf_write_mem (address : Z) :
    0 <= address <= 0x1FFF ->
    well_formed (mkCommand (value WRITE_MEM) "write_mem" {["address" := address]})
| wf_bin_op :
    well_formed (mkCommand (value BIN_OP) "bin_op_rotr" ∅).

(** The number of bytes [to_bytes] returns for an opcode. *)
Definition encoded_length (opcode : Z) : nat :=
  if opcode =? value LOAD_CONST then 5
  else if opcode =? value BIN_OP then 1
  else 3.

(** The effect of [str.rstrip] of a text on its lines: blank lines at the
    end disappear, the last remaining line is stripped on the right. *)
Fixpoint rstrip_lines (ls : list string) : list string :=
  match ls with
  | [] => []
  | l :: ls' =>
      match rstrip_lines ls' with
      | [] => if is_empty (Str.rstrip l) then [] else [Str.rstrip l]
      | kept => l :: kept
      end
  end.

(** [str.rstrip] and [str.splitlines] commute on [s], up to
    [rstrip_lines]. *)
Definition rstrip_splits (s : string) : Prop :=
  Str.splitlines (Str.rstrip s) = rstrip_lines (Str.splitlines s).

(** A carriage return directly before a line feed. *)
Definition crlf (c : ascii) (s : string) : bool :=
  Str.is_cr c &&
  match s with
  | String d _ => Str.is_lf d
  | EmptyString => false
  end.

(** Successive calls of [parse_csv] on one object. *)
Definition calls (self : Assembler) (texts : list string) : Assembler :=
  fold_left (fun self text => (parse_csv self text).2) texts self.

(** ** More of [assembler.py] *)

(** [Assembler.OPCODE_TO_NAME] *)
Definition OPCODE_TO_NAME : gmap Z string :=
  <[value LOAD_CONST := "load_const"]>
  (<[value READ_MEM := "read_mem"]>
  (<[value WRITE_MEM := "write_mem"]>
  (<[value BIN_OP := "bin_op_rotr"]> ∅))).

(** [str(v)] for an [int], as the f-strings of the file render one: the
    decimal digits without leading zeros, after a minus sign for a negative
    number.  [decimal] stops at the first quotient below ten; [str_int] gives
    it one more step than the number has binary digits. *)
Definition digit_char (d : Z) : ascii := ascii_of_N (Z.to_N (48 + d)).

Fixpoint decimal (steps : nat) (n : Z) : string :=
  match steps with
  | O => EmptyString
  | S steps' =>
      if n <? 10 then String (digit_char n) EmptyString
      else decimal steps' (n / 10) +:+ String (digit_char (n mod 10)) EmptyString
  end.

Definition str_int (v : Z) : string :=
  if v <? 0 then String "-" (decimal (S (Z.to_nat (Z.log2 (- v)))) (- v))
  else decimal (S (Z.to_nat (Z.log2 v))) v.

(** [bytes.hex()]: two lower-case hexadecimal digits for each byte. *)
Definition hex_digit (d : Z) : ascii :=
  if d <? 10 then ascii_of_N (Z.to_N (48 + d)) else ascii_of_N (Z.to_N (87 + d)).

Fixpoint hex (bs : list Z) : string :=
  match bs with
  | [] => EmptyString
  | b :: bs' => String (hex_digit (b / 16)) (String (hex_digit (b mod 16)) (hex bs'))
  end.

(** [str.upper] on ASCII text (the text of [bytes.hex()] is ASCII): a..z
    move down by 32. *)
Definition upper_char (c : ascii) : ascii :=
  if Str.between 97 122 (Str.code c) then ascii_of_N (Str.code c - 32) else c.

Fixpoint upper (s : string) : string :=
  match s with
  | EmptyString => EmptyString
  | String c s' => String (upper_char c) (upper s')
  end.

(** The value of a hexadecimal digit in either case, and the bytes of a text
    of such digits taken two by two (what [bytes.fromhex] returns for a text
    without white space); used to state what [hex_bytes] holds. *)
Definition hex_value (c : ascii) : option Z :=
  let n := Str.code c in
  if Str.between 48 57 n then Some (Z.of_N n - 48)
  else if Str.between 65 70 n then Some (Z.of_N n - 55)
  else if Str.between 97 102 n then Some (Z.of_N n - 87)
  else None.

Fixpoint fromhex (s : string) : option (list Z) :=
  match s with
  | EmptyString => Some []
  | String c (String d s') =>
      match hex_value c, hex_value d, fromhex s' with
      | Some h, Some l, Some bs => Some (16 * h + l :: bs)
      | _, _, _ => None
      end
  | String _ EmptyString => None
  end.

(** An entry of the list of [get_intermediate_representation]: the dict with
    the keys "opcode", "name", "fields" and "hex_bytes". *)
Record Entry := mkEntry {
  entry_opcode : Z;
  entry_name : string;
  entry_fields : gmap string Z;
  entry_hex_bytes : string
}.

(** [Assembler.get_intermediate_representation]; [to_bytes] may raise. *)
Definition get_intermediate_representation (self : Assembler)
  : result (list Entry) :=
  fold_left
    (fun ir cmd =>
       let* entries := ir in
       let* encoded := to_bytes cmd in
       Ok (entries ++ [mkEntry (opcode cmd) (name cmd) (fields cmd)
                         (upper (hex encoded))]))
    (commands self) (Ok []).

(** One test of [test_specification]: the object parses [test_csv]; when the
    intermediate representation is not empty, the bytes of the first command
    are compared with [expected_bytes] and the answer is printed after
    "Совпадение" ([None] when nothing is printed). *)
Definition specification_test (assembler : Assembler) (test_csv : string)
    (expected_bytes : list Z) : result (Assembler * option bool) :=
  let assembler := (parse_csv assembler test_csv).2 in
  let* ir := get_intermediate_representation assembler in
  match ir, commands assembler with
  | _ :: _, cmd :: _ =>
      let* actual_bytes := to_bytes cmd in
      Ok (assembler, Some (bool_decide (actual_bytes = expected_bytes)))
  | _, _ => Ok (assembler, None)
  end.

(** [test_specification]: the four answers, on one object. *)
Definition test_specification : result (list (option bool)) :=
  let assembler := init in
  let* t1 := specification_test assembler "load,147" [0xF7; 0x93; 0x00; 0x00] in
  let* t2 := specification_test t1.1 "read,95" [0x3D; 0x5F; 0x00] in
  let* t3 := specification_test t2.1 "write,242" [0x7D; 0xF2; 0x00] in
  let* t4 := specification_test t3.1 "rotr" [0x91] in
  Ok [t1.2; t2.2; t3.2; t4.2].

(** The bytes [to_bytes] returns when it returns, as a function: the operand
    under [key] is masked to [bits] bits and packed in [width] bytes. *)
Definition masked_bytes (op : Z) (width : nat) (bits : Z) (operand : Z) : list Z :=
  op :: Struct.le_bytes width (operand mod 2 ^ bits).

(** The loop of [assemble_to_bytes] as a recursion over the commands: the
    bytes of the first command, then those of the others; the first command
    that raises ends it. *)
Fixpoint encode_all (cmds : list Command) : result (list Z) :=
  match cmds with
  | [] => Ok []
  | cmd :: cmds' =>
      let* encoded := to_bytes cmd in
      let* rest := encode_all cmds' in
      Ok (encoded ++ rest)
  end.

(** ** The rest of the class of [assemly.py]

    The tables [OPCODES] and [COMMAND_SIZES] come from the module [cmds],
    which is not part of the sources at hand: they are arguments here. *)

Module AssemlyAssembler.

(** The dict that [parse_line] returns. *)
Record Cmd := mkCmd {
  cmd_opcode : string;    (* 'opcode' *)
  opcode_value : Z;       (* 'opcode_value' *)
  operand : option Z;     (* 'operand', [None] for Python's None *)
  size : Z                (* 'size' *)
}.

(** What [parse_line] raises. *)
Inductive Raised :=
| UnknownName (opcode : string) (* ValueError(f"Неизвестная команда: {opcode}") *)
| BadOperand (text : string)    (* ValueError(f"Некорректный операнд: {parts[1]}") *)
| NoSize (opcode : string).     (* KeyError of COMMAND_SIZES[opcode] *)

(** What [write_binary] raises. *)
Inductive Crash :=
| Pack (e : exn)        (* out of [encode_load_const] or [encode_mem_access] *)
| BytesRange (x : Z).   (* ValueError of [bytes([x])] for x outside 0..255 *)

(** [c in s] for a character. *)
Fixpoint contains (s : string) (c : ascii) : bool :=
  match s with
  | EmptyString => false
  | String d s' => Ascii.eqb d c || contains s' c
  end.

(** [Assembler.parse_line]: [inr None] for the returned None. *)
Definition parse_line (OPCODES COMMAND_SIZES : gmap string Z) (line : string)
  : Raised + option Cmd :=
  let line := Str.strip line in
  let line :=
    if contains line "#" then Str.strip (hd EmptyString (Str.split line "#"))
    else line in
  if is_empty line then inr None else
  let parts := Str.strip <$> Str.split line "," in
  let opcode := hd EmptyString parts in
  match OPCODES !! opcode with
  | None => inl (UnknownName opcode)
  | Some value =>
      let parsed_operand : Raised + option Z :=
        match parts !! 1%nat with
        | None => inr None
        | Some p1 =>
            if is_empty p1 then inr None else
            match Str.int (Str.strip p1) with
            | Some v => inr (Some v)
            | None => inl (BadOperand p1)
            end
        end in
      match parsed_operand with
      | inl e => inl e
      | inr operand =>
          match COMMAND_SIZES !! opcode with
          | None => inl (NoSize opcode)
          | Some sz => inr (Some (mkCmd opcode value operand sz))
          end
      end
  end.

(** The loop of [assemble] over the numbered lines: the object afterwards
    and, when a line raised, its number with what it raised. *)
Fixpoint assemble_loop (OPCODES COMMAND_SIZES : gmap string Z)
    (intermediate_repr : list Cmd) (numbered : list (nat * string))
  : list Cmd * option (nat * Raised) :=
  match numbered with
  | [] => (intermediate_repr, None)
  | (line_num, line) :: rest =>
      match parse_line OPCODES COMMAND_SIZES line with
      | inl e => (intermediate_repr, Some (line_num, e))
      | inr None => assemble_loop OPCODES COMMAND_SIZES intermediate_repr rest
      | inr (Some command) =>
          assemble_loop OPCODES COMMAND_SIZES (intermediate_repr ++ [command]) rest
      end
  end.

(** The body of the loop of [write_binary]: the bytes one command adds.  A
    command whose name is none of the four adds nothing. *)
Definition encode_command (cmd : Cmd) : Crash + list Z :=
  let opcode := opcode_value cmd in
  let operand := default 0 (operand cmd) in
  if String.eqb (cmd_opcode cmd) "LOAD_CONST" then
    match Assemly.encode_load_const opcode operand with
    | Ok encoded => inr encoded
    | Raise e => inl (Pack e)
    end
  else if String.eqb (cmd_opcode cmd) "MEM_READ"
          || String.eqb (cmd_opcode cmd) "MEM_WRITE" then
    match Assemly.encode_mem_access opcode operand with
    | Ok encoded => inr encoded
    | Raise e => inl (Pack e)
    end
  else if String.eqb (cmd_opcode cmd) "ROR" then
    if (0 <=? opcode) && (opcode <? 256) then inr [opcode]
    else inl (BytesRange opcode)
  else inr [].

(** [Assembler.write_binary]: the bytes written to the file, unless a
    command raises before the file is opened. *)
Definition write_binary (intermediate_repr : list Cmd) : Crash + list Z :=
  fold_left
    (fun binary_data cmd =>
       match binary_data with
       | inl c => inl c
       | inr data =>
           match encode_command cmd with
           | inl c => inl c
           | inr encoded => inr (data ++ encoded)
           end
       end)
    intermediate_repr (inr []).

(** How a call of [assemble] ends. *)
Inductive Ended :=
| ReturnFalse (line_num : nat) (e : Raised)
    (* prints f"Ошибка в строке {line_num}: {e}" and returns False *)
| ReturnTrue (written : option (list Z))
    (* the bytes of [write_binary], or [None] in test mode *)
| Uncaught (c : Crash).
    (* [write_binary] raised; [assemble] does not catch it *)

(** [Assembler.assemble] on the lines that [readlines] returned: the object
    afterwards and how the call ended. *)
Definition assemble (OPCODES COMMAND_SIZES : gmap string Z)
    (intermediate_repr : list Cmd) (lines : list string) (test_mode : bool)
  : list Cmd * Ended :=
  match assemble_loop OPCODES COMMAND_SIZES intermediate_repr (enumerate lines 1) with
  | (self, Some (line_num, e)) => (self, ReturnFalse line_num e)
  | (self, None) =>
      if test_mode then (self, ReturnTrue None)
      else
        match write_binary self with
        | inl c => (self, Uncaught c)
        | inr data => (self, ReturnTrue (Some data))
        end
  end.

End AssemlyAssembler.

(** The commands that [AssemlyAssembler.parse_line] returns for the lines
    of a list, in order. *)
Definition assemly_commands_of (OPCODES COMMAND_SIZES : gmap string Z)
    (lines : list string) : list AssemlyAssembler.Cmd :=
  omap (fun line =>
          match AssemlyAssembler.parse_line OPCODES COMMAND_SIZES line with
          | inr (Some command) => Some command
          | _ => None
          end) lines.

(** The loop of [AssemlyAssembler.write_binary] as a recursion over the
    commands. *)
Fixpoint assemly_encode_all (cmds : list AssemlyAssembler.Cmd)
  : AssemlyAssembler.Crash + list Z :=
  match cmds with
  | [] => inr []
  | cmd :: cmds' =>
      match AssemlyAssembler.encode_command cmd with
      | inl c => inl c
      | inr encoded =>
          match assemly_encode_all cmds' with
          | inl c => inl c
          | inr rest => inr (encoded ++ rest)
          end
      end
  end.

(** Texts of white space only, texts without white space and without a
    comma, and texts of decimal digits only. *)
Fixpoint all_space (s : string) : bool :=
  match s with
  | EmptyString => true
  | String c s' => Str.isspace c && all_space s'
  end.

Definition plain_char (c : ascii) : bool :=
  negb (Str.isspace c) && negb (Ascii.eqb c ",").

Fixpoint plain (s : string) : bool :=
  match s with
  | EmptyString => true
  | String c s' => plain_char c && plain s'
  end.

Fixpoint all_digits (s : string) : bool :=
  match s with
  | EmptyString => true
  | String c s' => Str.is_digit c && all_digits s'
  end.

Fixpoint no_space (s : string) : bool :=
  match s with
  | EmptyString => true
  | String c s' => negb (Str.isspace c) && no_space s'
  end.


(** Case analysis on the 256 characters. *)
Ltac ascii_cases c := destruct c as [[|] [|] [|] [|] [|] [|] [|] [|]].

(** * Properties *)

(** ** Packing and masking *)

Lemma le_decode_le_bytes (n : nat) (x : Z) :
  0 <= x < 256 ^ Z.of_nat n ->
  Struct.le_decode (Struct.le_bytes n x) = x.
Proof.
  revert x. induction n as [|n IH]; intros x Hx.
  - simpl in Hx. simpl. lia.
  - cbn [Struct.le_bytes Struct.le_decode]. rewrite IH.
    + pose proof (Z.div_mod x 256). lia.
    + rewrite Nat2Z.inj_succ, Z.pow_succ_r in Hx by lia.
      split; [apply Z.div_pos; lia | apply Z.div_lt_upper_bound; lia].
Qed.

Lemma length_le_bytes (n : nat) (x : Z) : length (Struct.le_bytes n x) = n.
Proof. revert x. induction n as [|n IH]; intros x; simpl; [done | by rewrite IH]. Qed.

Lemma le_bytes_range (n : nat) (x : Z) :
  Forall (fun b => 0 <= b < 256) (Struct.le_bytes n x).
Proof.
  revert x. induction n as [|n IH]; intros x; simpl; constructor; [|apply IH].
  apply Z.mod_pos_bound. lia.
Qed.

(** The mask of [to_bytes] for constants does nothing below 2^21. *)
Lemma mask21_id (v : Z) : 0 <= v <= 0x1FFFFF -> Z.land v 0x1FFFFF = v.
Proof.
  intros Hv. change 0x1FFFFF with (Z.ones 21).
  rewrite Z.land_ones by lia. apply Z.mod_small.
  change (2 ^ 21) with 2097152. change 0x1FFFFF with 2097151 in Hv. lia.
Qed.

(** The mask of [to_bytes] for offsets and addresses does nothing below
    2^13. *)
Lemma mask13_id (v : Z) : 0 <= v <= 0x1FFF -> Z.land v 0x1FFF = v.
Proof.
  intros Hv. change 0x1FFF with (Z.ones 13).
  rewrite Z.land_ones by lia. apply Z.mod_small.
  change (2 ^ 13) with 8192. change 0x1FFF with 8191 in Hv. lia.
Qed.

Lemma pack_byte_then (c : Struct.fmt) (a x : Z) :
  0 <= a < 256 -> 0 <= x < 256 ^ Z.of_nat (Struct.size c) ->
  Struct.pack Struct.Little [Struct.B; c] [a; x]
  = Ok (a :: Struct.le_bytes (Struct.size c) x).
Proof.
  intros Ha Hx. cbn [Struct.pack].
  assert ((0 <=? a) && (a <? 256 ^ Z.of_nat (Struct.size Struct.B)) = true) as ->.
  { change (256 ^ Z.of_nat (Struct.size Struct.B)) with 256.
    apply andb_true_intro. split; [apply Z.leb_le | apply Z.ltb_lt]; lia. }
  assert ((0 <=? x) && (x <? 256 ^ Z.of_nat (Struct.size c)) = true) as ->.
  { apply andb_true_intro. split; [apply Z.leb_le | apply Z.ltb_lt]; lia. }
  cbn [bind Struct.field]. rewrite app_nil_r.
  cbn [Struct.size Struct.le_bytes app].
  rewrite Z.mod_small by lia. done.
Qed.

(** ** [to_bytes] on the commands of the parser *)

Lemma to_bytes_load_const (const : Z) :
  0 <= const <= 0x1FFFFF ->
  to_bytes (mkCommand (value LOAD_CONST) "load_const" {["const" := const]})
  = Ok (value LOAD_CONST :: Struct.le_bytes 4 const).
Proof.
  intros Hv. unfold to_bytes. cbn [opcode fields].
  change (value LOAD_CONST =? value LOAD_CONST) with true. cbv iota.
  unfold getitem. rewrite lookup_singleton_eq. cbn [bind].
  rewrite mask21_id by done.
  apply (pack_byte_then Struct.I); [done|].
  change (256 ^ Z.of_nat (Struct.size Struct.I)) with 4294967296.
  change 0x1FFFFF with 2097151 in Hv. lia.
Qed.

Lemma to_bytes_read_mem (offset : Z) :
  0 <= offset <= 0x1FFF ->
  to_bytes (mkCommand (value READ_MEM) "read_mem" {["offset" := offset]})
  = Ok (value READ_MEM :: Struct.le_bytes 2 offset).
Proof.
  intros Hv. unfold to_bytes. cbn [opcode fields].
  change (value READ_MEM =? value LOAD_CONST) with false.
  change (value READ_MEM =? value READ_MEM) with true. cbv iota.
  unfold getitem. rewrite lookup_singleton_eq. cbn [bind].
  rewrite mask13_id by done.
  apply (pack_byte_then Struct.H); [done|].
  change (256 ^ Z.of_nat (Struct.size Struct.H)) with 65536.
  change 0x1FFF with 8191 in Hv. lia.
Qed.

Lemma to_bytes_write_mem (address : Z) :
  0 <= address <= 0x1FFF ->
  to_bytes (mkCommand (value WRITE_MEM) "write_mem" {["address" := address]})
  = Ok (value WRITE_MEM :: Struct.le_bytes 2 address).
Proof.
  intros Hv. unfold to_bytes. cbn [opcode fields].
  change (value WRITE_MEM =? value LOAD_CONST) with false.
  change (value WRITE_MEM =? value READ_MEM) with false.
  change (value WRITE_MEM =? value WRITE_MEM) with true. cbv iota.
  unfold getitem. rewrite lookup_singleton_eq. cbn [bind].
  rewrite mask13_id by done.
  apply (pack_byte_then Struct.H); [done|].
  change (256 ^ Z.of_nat (Struct.size Struct.H)) with 65536.
  change 0x1FFF with 8191 in Hv. lia.
Qed.

Lemma to_bytes_bin_op :
  to_bytes (mkCommand (value BIN_OP) "bin_op_rotr" ∅) = Ok [value BIN_OP].
Proof. reflexivity. Qed.

(** Every command of the parser is encoded: the opcode byte comes first and
    the length is that of [encoded_length]. *)
Lemma to_bytes_shape (cmd : Command) :
  well_formed cmd ->
  exists bs, to_bytes cmd = Ok (opcode cmd :: bs)
             /\ length (opcode cmd :: bs) = encoded_length (opcode cmd).
Proof.
  intros [const H|offset H|address H|].
  - exists (Struct.le_bytes 4 const). by rewrite to_bytes_load_const.
  - exists (Struct.le_bytes 2 offset). by rewrite to_bytes_read_mem.
  - exists (Struct.le_bytes 2 address). by rewrite to_bytes_write_mem.
  - by exists [].
Qed.

Lemma range_test_false (v hi : Z) :
  (v <? 0) || (v >? hi) = false -> 0 <= v <= hi.
Proof. intros H. apply orb_false_elim in H as [H1 H2]. lia. Qed.

Lemma parse_operation_well_formed (n : nat) (op : Z) (row : list string) (cmd : Command) :
  parse_operation n op row = Parsed cmd -> well_formed cmd.
Proof.
  unfold parse_operation. intros H.
  destruct (op =? value LOAD_CONST) eqn:E1.
  { apply Z.eqb_eq in E1. subst op.
    repeat case_match; simplify_eq. constructor. by apply range_test_false. }
  destruct (op =? value READ_MEM) eqn:E2.
  { apply Z.eqb_eq in E2. subst op.
    repeat case_match; simplify_eq. constructor. by apply range_test_false. }
  destruct (op =? value WRITE_MEM) eqn:E3.
  { apply Z.eqb_eq in E3. subst op.
    repeat case_match; simplify_eq. constructor. by apply range_test_false. }
  destruct (op =? value BIN_OP) eqn:E4.
  { apply Z.eqb_eq in E4. subst op. simplify_eq. constructor. }
  discriminate.
Qed.

Lemma parse_line_well_formed (n : nat) (line : string) (cmd : Command) :
  parse_line n line = Parsed cmd -> well_formed cmd.
Proof.
  unfold parse_line, parse_row. intros H.
  repeat case_match; simplify_eq. by eapply parse_operation_well_formed.
Qed.

(** ** The loop of [parse_csv] *)

Lemma fold_record (numbered : list (nat * string)) (self : Assembler) :
  fold_left (fun self '(line_num, line) => record self (parse_line line_num line))
    numbered self
  = {| commands := commands self ++ omap parsed (outcomes numbered);
       errors := errors self ++ omap failed (outcomes numbered) |}.
Proof.
  revert self. induction numbered as [|[n line] numbered IH]; intros self.
  - simpl. rewrite !app_nil_r. by destruct self.
  - cbn [fold_left]. rewrite IH. unfold outcomes. cbn [fmap list_fmap omap list_omap].
    destruct (parse_line n line); cbn [record commands errors parsed failed];
      by rewrite <- ?app_assoc.
Qed.

(** [parse_csv] leaves the commands and the errors of the numbered lines of
    the stripped text, each list in the order of the lines, whatever the
    object held before; the flag tells whether there is no error. *)
Lemma parse_csv_outcomes (self : Assembler) (csv_content : string) :
  let os := outcomes (enumerate (Str.splitlines (Str.strip csv_content)) 1) in
  parse_csv self csv_content
  = (Nat.eqb (length (omap failed os)) 0,
     {| commands := omap parsed os; errors := omap failed os |}).
Proof. unfold parse_csv. rewrite fold_record. reflexivity. Qed.

(** ** Stripping and the lines of a text *)

Lemma linebreak_isspace (c : ascii) :
  Str.is_linebreak c = true -> Str.isspace c = true.
Proof. ascii_cases c; vm_compute; congruence. Qed.

Lemma is_empty_true (s : string) : is_empty s = true -> s = "".
Proof. by destruct s. Qed.

Lemma is_empty_false (s : string) : is_empty s = false -> s <> "".
Proof. by destruct s. Qed.

Lemma rstrip_idem (s : string) : Str.rstrip (Str.rstrip s) = Str.rstrip s.
Proof.
  induction s as [|c s IH]; [done|]. cbn [Str.rstrip].
  destruct (Str.rstrip s) as [|a r] eqn:E.
  - destruct (Str.isspace c) eqn:Ec; [done|]. cbn [Str.rstrip]. by rewrite Ec.
  - cbn [Str.rstrip] in IH |- *. by rewrite IH.
Qed.

Lemma lstrip_rstrip (s : string) :
  Str.lstrip (Str.rstrip s) = Str.rstrip (Str.lstrip s).
Proof.
  induction s as [|c s IH]; [done|]. cbn [Str.rstrip Str.lstrip].
  destruct (Str.isspace c) eqn:Ec.
  - rewrite <- IH. destruct (Str.rstrip s) as [|a r]; [done|].
    cbn [Str.lstrip]. by rewrite Ec.
  - cbn [Str.rstrip]. rewrite Ec.
    destruct (Str.rstrip s) as [|a r]; cbn [Str.lstrip]; by rewrite Ec.
Qed.

Lemma strip_rstrip (s : string) : Str.strip (Str.rstrip s) = Str.strip s.
Proof. unfold Str.strip. by rewrite lstrip_rstrip, rstrip_idem. Qed.

Lemma strip_space_cons (c : ascii) (s : string) :
  Str.isspace c = true -> Str.strip (String c s) = Str.strip s.
Proof. intros Hc. unfold Str.strip. cbn [Str.lstrip]. by rewrite Hc. Qed.

Lemma splitlines_nil (s : string) : Str.splitlines s = [] -> s = "".
Proof.
  destruct s as [|c s]; [done|]. cbn [Str.splitlines].
  destruct (Str.is_linebreak c); [done|].
  by destruct (Str.splitlines s).
Qed.

Lemma splitlines_break (c : ascii) (s : string) :
  Str.is_linebreak c = true -> crlf c s = false ->
  Str.splitlines (String c s) = "" :: Str.splitlines s.
Proof.
  intros Hc Hn. cbn [Str.splitlines]. rewrite Hc. unfold crlf in Hn.
  destruct (Str.is_cr c); [|done]. destruct s as [|d s]; [done|].
  cbn [andb] in Hn. by rewrite Hn.
Qed.

Lemma splitlines_crlf (c d : ascii) (s : string) :
  Str.is_cr c = true -> Str.is_lf d = true ->
  Str.splitlines (String c (String d s)) = "" :: Str.splitlines s.
Proof.
  intros Hc Hd. cbn [Str.splitlines].
  assert (Str.is_linebreak c = true) as ->.
  { revert Hc. ascii_cases c; vm_compute; congruence. }
  by rewrite Hc, Hd.
Qed.

Lemma splitlines_nonbreak (c : ascii) (s : string) :
  Str.is_linebreak c = false ->
  Str.splitlines (String c s) = Str.cons_line c (Str.splitlines s).
Proof. intros Hc. cbn [Str.splitlines]. by rewrite Hc. Qed.

Lemma rstrip_lines_cons_line (c : ascii) (ls : list string) :
  rstrip_lines (Str.cons_line c ls)
  = match rstrip_lines ls with
    | [] => if Str.isspace c then [] else [String c ""]
    | kept => Str.cons_line c kept
    end.
Proof.
  destruct ls as [|l ls]; cbn [Str.cons_line rstrip_lines Str.rstrip].
  - by destruct (Str.isspace c).
  - destruct (rstrip_lines ls) as [|k kept]; [|done].
    destruct (Str.rstrip l) as [|a r]; cbn [is_empty Str.cons_line]; [|done].
    by destruct (Str.isspace c).
Qed.

Lemma rstrip_step_nonbreak (c : ascii) (s : string) :
  Str.is_linebreak c = false -> rstrip_splits s -> rstrip_splits (String c s).
Proof.
  unfold rstrip_splits. intros Hc IH. rewrite (splitlines_nonbreak c s Hc).
  rewrite rstrip_lines_cons_line, <- IH. cbn [Str.rstrip].
  destruct (Str.rstrip s) as [|a r] eqn:E.
  - destruct (Str.isspace c); [done|]. by rewrite (splitlines_nonbreak c "" Hc).
  - rewrite (splitlines_nonbreak c (String a r) Hc).
    destruct (Str.splitlines (String a r)) eqn:E2; [|done].
    by apply splitlines_nil in E2.
Qed.

Lemma rstrip_step_break (c : ascii) (s : string) :
  Str.is_linebreak c = true -> crlf c s = false -> rstrip_splits s -> rstrip_splits (String c s).
Proof.
  unfold rstrip_splits. intros Hc Hn IH. rewrite (splitlines_break c s) by done.
  cbn [rstrip_lines Str.rstrip is_empty]. rewrite <- IH.
  rewrite (linebreak_isspace c Hc).
  destruct (Str.rstrip s) as [|a r] eqn:E; [done|].
  assert (crlf c (String a r) = false) as Hn'.
  { destruct s as [|d s]; [done|]. cbn [Str.rstrip] in E.
    destruct (Str.rstrip s); [destruct (Str.isspace d)|]; by simplify_eq. }
  rewrite (splitlines_break c (String a r)) by done.
  destruct (Str.splitlines (String a r)) eqn:E2; [|done].
  by apply splitlines_nil in E2.
Qed.

Lemma rstrip_step_crlf (c d : ascii) (s : string) :
  Str.is_cr c = true -> Str.is_lf d = true -> rstrip_splits s -> rstrip_splits (String c (String d s)).
Proof.
  unfold rstrip_splits. intros Hc Hd IH. rewrite (splitlines_crlf c d s) by done.
  cbn [rstrip_lines Str.rstrip is_empty]. rewrite <- IH.
  assert (Str.isspace c = true) as ->.
  { revert Hc. ascii_cases c; vm_compute; congruence. }
  assert (Str.isspace d = true) as ->.
  { revert Hd. ascii_cases d; vm_compute; congruence. }
  destruct (Str.rstrip s) as [|a r] eqn:E; [done|].
  rewrite (splitlines_crlf c d (String a r)) by done.
  destruct (Str.splitlines (String a r)) eqn:E2; [|done].
  by apply splitlines_nil in E2.
Qed.

Lemma rstrip_pair (s : string) : rstrip_splits s /\ forall c, rstrip_splits (String c s).
Proof.
  induction s as [|d s [IH1 IH2]].
  - assert (rstrip_splits "") as H0 by done. split; [done|]. intros c.
    destruct (Str.is_linebreak c) eqn:Hc.
    + apply rstrip_step_break; [done| |done]. unfold crlf. by rewrite andb_false_r.
    + by apply rstrip_step_nonbreak.
  - split; [apply IH2|]. intros c.
    destruct (Str.is_linebreak c) eqn:Hc; [|by apply rstrip_step_nonbreak].
    destruct (crlf c (String d s)) eqn:Hn; [|by apply rstrip_step_break].
    apply andb_prop in Hn as [Hcr Hlf]. by apply rstrip_step_crlf.
Qed.

(** The lines of a text stripped on the right. *)
Lemma splitlines_rstrip (s : string) :
  Str.splitlines (Str.rstrip s) = rstrip_lines (Str.splitlines s).
Proof. apply rstrip_pair. Qed.

(** The lines of a text stripped on the left: with a property that survives
    the removal of a leading white space character. *)
Lemma Forall_splitlines_lstrip (Q : string -> Prop) (s : string) :
  (forall c l, Str.isspace c = true -> Q (String c l) -> Q l) ->
  Forall Q (Str.splitlines s) -> Forall Q (Str.splitlines (Str.lstrip s)).
Proof.
  intros HQ. induction s as [|c s IH]; [done|]. cbn [Str.lstrip].
  destruct (Str.isspace c) eqn:Ec; [|done]. intros H. apply IH. clear IH.
  destruct (Str.is_linebreak c) eqn:Hc.
  - destruct (crlf c s) eqn:Hn.
    + apply andb_prop in Hn as [Hcr Hlf]. destruct s as [|d s]; [done|].
      rewrite (splitlines_crlf c d s) in H by done.
      rewrite (splitlines_break d s); [done| |].
      * revert Hlf. ascii_cases d; vm_compute; congruence.
      * unfold crlf. replace (Str.is_cr d) with false; [done|].
        revert Hlf. ascii_cases d; vm_compute; congruence.
    + rewrite (splitlines_break c s) in H by done. by apply Forall_inv_tail in H.
  - rewrite (splitlines_nonbreak c s Hc) in H.
    destruct (Str.splitlines s) as [|l ls]; [done|]. cbn [Str.cons_line] in H.
    apply Forall_cons in H as [H1 H2]. apply Forall_cons. split; [|done].
    by apply (HQ c).
Qed.

(** ** Lines that are skipped *)

Lemma line_row_strip (l1 l2 : string) :
  Str.strip l1 = Str.strip l2 -> line_row l1 = line_row l2.
Proof. unfold line_row. by intros ->. Qed.

Lemma parse_line_strip (n : nat) (l1 l2 : string) :
  Str.strip l1 = Str.strip l2 -> parse_line n l1 = parse_line n l2.
Proof. intros H. unfold parse_line. by rewrite (line_row_strip l1 l2 H). Qed.

Lemma blank_or_comment_skipped (n : nat) (line : string) :
  blank_or_comment line = true -> parse_line n line = Skipped.
Proof.
  unfold blank_or_comment, parse_line, line_row. intros H.
  destruct (is_empty (Str.strip line)); [done|].
  cbn [orb] in H. by rewrite H.
Qed.

Lemma blank_skipped (n : nat) (line : string) :
  Str.rstrip line = "" -> parse_line n line = Skipped.
Proof.
  intros H. rewrite (parse_line_strip n line "").
  - done.
  - by rewrite <- strip_rstrip, H.
Qed.

Lemma outcomes_skipped (ls : list string) (start : nat) :
  Forall (fun l => blank_or_comment l = true) ls ->
  Forall (fun o => o = Skipped) (outcomes (enumerate ls start)).
Proof.
  intros H. revert start. induction H as [|l ls Hl _ IH]; intros start.
  - constructor.
  - cbn. constructor; [by apply blank_or_comment_skipped | apply IH].
Qed.

Lemma omap_skipped {A} (g : outcome -> option A) (os : list outcome) :
  g Skipped = None -> Forall (fun o => o = Skipped) os -> omap g os = [].
Proof.
  intros Hg H. induction H as [|o os -> _ IH]; [done|].
  cbn. by rewrite Hg.
Qed.

(** What [rstrip_lines] removes or changes does not show in the outcomes:
    the lines it drops are skipped, and the line it strips on the right is
    parsed as before. *)
Lemma omap_outcomes_rstrip_lines {A} (g : outcome -> option A)
    (ls : list string) (start : nat) :
  g Skipped = None ->
  omap g (outcomes (enumerate (rstrip_lines ls) start))
  = omap g (outcomes (enumerate ls start)).
Proof.
  intros Hg. revert start. induction ls as [|l ls IH]; intros start; [done|].
  cbn [rstrip_lines]. specialize (IH (S start)).
  destruct (rstrip_lines ls) as [|k kept].
  - cbn [enumerate outcomes fmap list_fmap omap list_omap] in IH |- *.
    fold (outcomes (enumerate ls (S start))). rewrite <- IH.
    destruct (is_empty (Str.rstrip l)) eqn:E.
    + apply is_empty_true in E. by rewrite (blank_skipped start l E), Hg.
    + cbn [enumerate outcomes fmap list_fmap omap list_omap].
      by rewrite (parse_line_strip start (Str.rstrip l) l (strip_rstrip l)).
  - cbn [enumerate outcomes fmap list_fmap omap list_omap] in IH |- *.
    fold (outcomes (enumerate (k :: kept) (S start))) in IH |- *.
    fold (outcomes (enumerate ls (S start))). by rewrite IH.
Qed.

(** Only the white space in front of the text matters to [parse_csv]: its
    commands and errors are those of the numbered lines of the text
    stripped on the left. *)
Lemma parse_csv_lstrip (self : Assembler) (csv_content : string) :
  let os := outcomes (enumerate (Str.splitlines (Str.lstrip csv_content)) 1) in
  parse_csv self csv_content
  = (Nat.eqb (length (omap failed os)) 0,
     {| commands := omap parsed os; errors := omap failed os |}).
Proof.
  cbv zeta. rewrite parse_csv_outcomes. cbv zeta.
  unfold Str.strip. rewrite splitlines_rstrip.
  by rewrite !omap_outcomes_rstrip_lines.
Qed.

(** ** From a line to [parse_operation] *)

Lemma mnemonics_empty : MNEMONICS !! "" = None.
Proof. reflexivity. Qed.

Lemma lower_empty (s : string) : Str.lower s = "" -> s = "".
Proof. by destruct s. Qed.

Lemma parse_line_operation (n : nat) (line r0 : string) (rest : list string) (op : Z) :
  line_row line = Some (r0 :: rest) ->
  MNEMONICS !! Str.lower r0 = Some op ->
  parse_line n line = parse_operation n op (r0 :: rest).
Proof.
  intros Hrow Hm. unfold parse_line. rewrite Hrow. unfold parse_row.
  destruct r0 as [|c r0].
  { cbn [Str.lower] in Hm. by rewrite mnemonics_empty in Hm. }
  cbn [is_empty]. by rewrite Hm.
Qed.

Lemma int_strip_nonempty (r1 : string) (v : Z) :
  Str.int (Str.strip r1) = Some v -> is_empty r1 = false.
Proof. by destruct r1. Qed.

(** ** The claims *)

(** C1 (fails on the code).  For the line "load,147" the parser builds
    LOAD_CONST with the constant 147, and its encoding has five bytes, the
    opcode byte 0xE7 and the constant in four bytes, least significant
    first: 0xE7 0x93 0x00 0x00 0x00, not the four bytes 0xE7 0x93 0x00 0x00.
    The format [<BI] packs the constant as a four-byte unsigned int. *)
Theorem load_147_bytes :
  parse_csv init "load,147"
  = (true, {| commands := [mkCommand 231 "load_const" {["const" := 147]}];
              errors := [] |})
  /\ to_bytes (mkCommand 231 "load_const" {["const" := 147]})
     = Ok [0xE7; 0x93; 0x00; 0x00; 0x00]
  /\ main "load,147" = Written [0xE7; 0x93; 0x00; 0x00; 0x00].
Proof. repeat split; vm_compute; reflexivity. Qed.

(** The second variant answers the pair (231, 147) with four bytes in the
    opposite order. *)
Lemma assemly_load_147 :
  Assemly.encode_load_const 231 147 = Ok [0xE7; 0x00; 0x00; 0x93].
Proof. reflexivity. Qed.

(** The second variant returns four bytes for LOAD_CONST: the opcode byte
    and the three high bytes of the operand packed in four bytes, most
    significant first, so the low byte of the operand is lost. *)
Lemma assemly_load_const_length (opcode operand : Z) :
  0 <= opcode < 256 -> 0 <= operand < 2 ^ 32 ->
  exists b1 b2 b3,
    Assemly.encode_load_const opcode operand = Ok [opcode; b1; b2; b3].
Proof.
  intros Ho Hv. unfold Assemly.encode_load_const.
  destruct ((opcode =? 231) && (operand =? 147)) eqn:E.
  - apply andb_prop in E as [E _]. apply Z.eqb_eq in E. subst. by eexists _, _, _.
  - cbn [Struct.pack].
    assert ((0 <=? opcode) && (opcode <? 256 ^ Z.of_nat (Struct.size Struct.B)) = true) as ->.
    { change (256 ^ Z.of_nat (Struct.size Struct.B)) with 256.
      apply andb_true_intro. split; [apply Z.leb_le | apply Z.ltb_lt]; lia. }
    assert ((0 <=? operand) && (operand <? 256 ^ Z.of_nat (Struct.size Struct.I)) = true) as ->.
    { change (256 ^ Z.of_nat (Struct.size Struct.I)) with (2 ^ 32).
      apply andb_true_intro. split; [apply Z.leb_le | apply Z.ltb_lt]; lia. }
    cbn [bind Struct.field Struct.size Struct.le_bytes rev app take].
    rewrite Z.mod_small by lia. by eexists _, _, _.
Qed.

Example assemly_load_1 : Assemly.encode_load_const 231 1 = Ok [231; 0; 0; 0].
Proof. reflexivity. Qed.

(** The other literal scenarios of the specification, on [main]. *)
Example main_read_95 : main "read,95" = Written [0x3D; 0x5F; 0x00].
Proof. vm_compute. reflexivity. Qed.

Example main_write_242 : main "write,242" = Written [0x7D; 0xF2; 0x00].
Proof. vm_compute. reflexivity. Qed.

Example main_rotr : main "rotr" = Written [0x91].
Proof. vm_compute. reflexivity. Qed.

Example main_load_9999999 :
  main "load,9999999" = Exit1 [ArgumentError 1 (ConstRange 9999999)].
Proof. vm_compute. reflexivity. Qed.

Example main_rotr_frobnicate :
  main ("rotr" +:+ String "010" "frobnicate")
  = Exit1 [UnknownCommand 2 "frobnicate"].
Proof. vm_compute. reflexivity. Qed.

(** C2 (fails on the code).  The encoding of a LOAD_CONST instruction has
    five bytes rather than the four of the table: here for the instruction
    of the line "load,0".  The first byte is the opcode 231. *)
Theorem load_const_five_bytes :
  parse_line 1 "load,0" = Parsed (mkCommand 231 "load_const" {["const" := 0]})
  /\ to_bytes (mkCommand 231 "load_const" {["const" := 0]}) = Ok [231; 0; 0; 0; 0]
  /\ encoded_length 231 = 5%nat.
Proof. repeat split; vm_compute; reflexivity. Qed.

(** For every command of the parser the first byte is the opcode and the
    length is 5 for LOAD_CONST, 3 for READ_MEM and WRITE_MEM, 1 for
    BIN_OP. *)
Lemma parsed_to_bytes_shape (n : nat) (line : string) (cmd : Command) :
  parse_line n line = Parsed cmd ->
  exists bs, to_bytes cmd = Ok (opcode cmd :: bs)
             /\ length (opcode cmd :: bs) = encoded_length (opcode cmd)
             /\ (opcode cmd = 231 \/ opcode cmd = 61 \/ opcode cmd = 125 \/ opcode cmd = 145).
Proof.
  intros H. apply parse_line_well_formed in H.
  destruct (to_bytes_shape cmd H) as (bs & Hb & Hl). exists bs.
  repeat split; [done..|]. destruct H; cbn; auto.
Qed.

Lemma round_trip_load_const (v : Z) :
  0 <= v <= 0x1FFFFF ->
  exists bs,
    to_bytes (mkCommand (value LOAD_CONST) "load_const" {["const" := v]})
    = Ok (value LOAD_CONST :: bs)
    /\ Struct.le_decode bs = v.
Proof.
  intros Hv. exists (Struct.le_bytes 4 v). split; [by apply to_bytes_load_const|].
  apply le_decode_le_bytes. change (256 ^ Z.of_nat 4) with 4294967296.
  change 0x1FFFFF with 2097151 in Hv. lia.
Qed.

Lemma round_trip_read_mem (v : Z) :
  0 <= v <= 0x1FFF ->
  exists bs,
    to_bytes (mkCommand (value READ_MEM) "read_mem" {["offset" := v]})
    = Ok (value READ_MEM :: bs)
    /\ Struct.le_decode bs = v.
Proof.
  intros Hv. exists (Struct.le_bytes 2 v). split; [by apply to_bytes_read_mem|].
  apply le_decode_le_bytes. change (256 ^ Z.of_nat 2) with 65536.
  change 0x1FFF with 8191 in Hv. lia.
Qed.

Lemma round_trip_write_mem (v : Z) :
  0 <= v <= 0x1FFF ->
  exists bs,
    to_bytes (mkCommand (value WRITE_MEM) "write_mem" {["address" := v]})
    = Ok (value WRITE_MEM :: bs)
    /\ Struct.le_decode bs = v.
Proof.
  intros Hv. exists (Struct.le_bytes 2 v). split; [by apply to_bytes_write_mem|].
  apply le_decode_le_bytes. change (256 ^ Z.of_nat 2) with 65536.
  change 0x1FFF with 8191 in Hv. lia.
Qed.

(** C3.  For every opcode with an operand and every operand [v] within the
    range of the opcode, the bytes that [to_bytes] puts after the opcode
    byte, read least significant byte first, give [v] back. *)
Theorem operand_round_trip (v : Z) :
  (0 <= v <= 0x1FFFFF ->
   exists bs,
     to_bytes (mkCommand (value LOAD_CONST) "load_const" {["const" := v]})
     = Ok (value LOAD_CONST :: bs)
     /\ Struct.le_decode bs = v)
  /\ (0 <= v <= 0x1FFF ->
      exists bs,
        to_bytes (mkCommand (value READ_MEM) "read_mem" {["offset" := v]})
        = Ok (value READ_MEM :: bs)
        /\ Struct.le_decode bs = v)
  /\ (0 <= v <= 0x1FFF ->
      exists bs,
        to_bytes (mkCommand (value WRITE_MEM) "write_mem" {["address" := v]})
        = Ok (value WRITE_MEM :: bs)
        /\ Struct.le_decode bs = v).
Proof.
  split; [|split].
  - apply round_trip_load_const.
  - apply round_trip_read_mem.
  - apply round_trip_write_mem.
Qed.

(** The same for whatever the parser builds from a line: an operand stored
    in the command comes back from the bytes after the opcode byte. *)
Lemma parsed_operand_round_trip (n : nat) (line : string) (cmd : Command)
    (key : string) (v : Z) :
  parse_line n line = Parsed cmd ->
  fields cmd !! key = Some v ->
  exists bs, to_bytes cmd = Ok (opcode cmd :: bs) /\ Struct.le_decode bs = v.
Proof.
  intros Hp Hk. apply parse_line_well_formed in Hp.
  destruct Hp as [const H|offset H|address H|]; cbn [fields opcode] in Hk |- *.
  - apply lookup_singleton_Some in Hk as [_ <-].
    by apply round_trip_load_const.
  - apply lookup_singleton_Some in Hk as [_ <-].
    by apply round_trip_read_mem.
  - apply lookup_singleton_Some in Hk as [_ <-].
    by apply round_trip_write_mem.
  - by rewrite lookup_empty in Hk.
Qed.

Lemma operand_round_trip_witness :
  exists bs,
    to_bytes (mkCommand (value LOAD_CONST) "load_const" {["const" := 147]})
    = Ok (value LOAD_CONST :: bs)
    /\ Struct.le_decode bs = 147.
Proof. apply (proj1 (operand_round_trip 147)). lia. Defined.

(** C4.  A line of LOAD_CONST, READ_MEM or WRITE_MEM whose operand is the
    greatest value of the range (0x1FFFFF, 0x1FFF, 0x1FFF) is parsed into
    its instruction; with the operand one greater the line gets the
    out-of-range error with its line number. *)
Theorem operand_boundary (n : nat) (line r0 r1 : string) (rest : list string) (v : Z) :
  line_row line = Some (r0 :: r1 :: rest) ->
  Str.int (Str.strip r1) = Some v ->
  (MNEMONICS !! Str.lower r0 = Some (value LOAD_CONST) ->
   (v = 0x1FFFFF ->
    parse_line n line
    = Parsed (mkCommand (value LOAD_CONST) "load_const" {["const" := 0x1FFFFF]}))
   /\ (v = 0x1FFFFF + 1 ->
       parse_line n line = Failed (ArgumentError n (ConstRange (0x1FFFFF + 1)))))
  /\ (MNEMONICS !! Str.lower r0 = Some (value READ_MEM) ->
      (v = 0x1FFF ->
       parse_line n line
       = Parsed (mkCommand (value READ_MEM) "read_mem" {["offset" := 0x1FFF]}))
      /\ (v = 0x1FFF + 1 ->
          parse_line n line = Failed (ArgumentError n (OffsetRange (0x1FFF + 1)))))
  /\ (MNEMONICS !! Str.lower r0 = Some (value WRITE_MEM) ->
      (v = 0x1FFF ->
       parse_line n line
       = Parsed (mkCommand (value WRITE_MEM) "write_mem" {["address" := 0x1FFF]}))
      /\ (v = 0x1FFF + 1 ->
          parse_line n line = Failed (ArgumentError n (AddressRange (0x1FFF + 1))))).
Proof.
  intros Hrow Hint. pose proof (int_strip_nonempty r1 v Hint) as Hne.
  assert (forall op, MNEMONICS !! Str.lower r0 = Some op ->
            parse_line n line = parse_operation n op (r0 :: r1 :: rest)) as Hop.
  { intros op Hm. by apply parse_line_operation. }
  split; [|split]; intros Hm; rewrite (Hop _ Hm);
    (split; intros ->; unfold parse_operation; cbn [lookup list_lookup];
     rewrite Hne, Hint; reflexivity).
Qed.

Lemma operand_boundary_witness :
  parse_line 1 "load,2097151"
  = Parsed (mkCommand (value LOAD_CONST) "load_const" {["const" := 0x1FFFFF]})
  /\ parse_line 1 "load,2097152"
     = Failed (ArgumentError 1 (ConstRange (0x1FFFFF + 1))).
Proof.
  split.
  - apply (proj1 (operand_boundary 1 "load,2097151" "load" "2097151" [] 0x1FFFFF
                    eq_refl eq_refl)); reflexivity.
  - apply (proj1 (operand_boundary 1 "load,2097152" "load" "2097152" [] (0x1FFFFF + 1)
                    eq_refl eq_refl)); reflexivity.
Defined.

(** ** Errors are collected, and any error withholds the binary *)

Lemma enumerate_lookup {A} (l : list A) (start i : nat) (x : A) :
  l !! i = Some x -> enumerate l start !! i = Some ((start + i)%nat, x).
Proof.
  revert start i. induction l as [|y l IH]; intros start i H; [done|].
  destruct i as [|i]; cbn [enumerate lookup list_lookup] in H |- *.
  - simplify_eq. by rewrite Nat.add_0_r.
  - replace (start + S i)%nat with (S start + i)%nat by lia. by apply IH.
Qed.

(** X16.  Every line of the text stripped on the left that fails leaves its
    entry in [errors], tagged with the number of the line in that text, and
    the lines before it and after it are parsed all the same. *)
Lemma failed_line_recorded (self : Assembler) (csv_content line : string)
    (i : nat) (e : Error) :
  Str.splitlines (Str.lstrip csv_content) !! i = Some line ->
  parse_line (S i) line = Failed e ->
  e ∈ errors (parse_csv self csv_content).2 /\ line_of e = S i.
Proof.
  intros Hl He. split.
  - rewrite parse_csv_lstrip. cbn [snd errors].
    apply list_elem_of_omap. exists (Failed e). split; [|done].
    unfold outcomes. apply list_elem_of_fmap. exists (S i, line). split; [by rewrite He|].
    apply list_elem_of_lookup. exists i. by rewrite (enumerate_lookup _ 1 i line Hl).
  - revert He. unfold parse_line, parse_row, parse_operation.
    intros He. repeat case_match; by simplify_eq.
Qed.

(** X17.  A text that does not start with white space has its lines
    numbered as they stand in the text. *)
Lemma parse_csv_numbering (self : Assembler) (csv_content : string) :
  Str.lstrip csv_content = csv_content ->
  errors (parse_csv self csv_content).2
  = omap failed (outcomes (enumerate (Str.splitlines csv_content) 1)).
Proof. intros H. rewrite parse_csv_lstrip. by rewrite H. Qed.

(** With an entry in [errors], [main] prints the entries and exits before
    any byte is produced. *)
Lemma main_withholds (csv_content : string) :
  errors (parse_csv init csv_content).2 <> [] ->
  main csv_content = Exit1 (errors (parse_csv init csv_content).2).
Proof.
  intros H. unfold main. rewrite parse_csv_outcomes in H |- *. cbv zeta in H |- *.
  cbn [snd errors] in H |- *.
  destruct (omap failed _) as [|e es]; [done|]. reflexivity.
Qed.

(** C5 (fails on the code, in the line numbers).  The text is stripped as a
    whole before it is cut into lines, so lines after leading blank lines
    are numbered from the first line that is not blank: in the two-line
    text below the unknown mnemonic stands on line 2, and the entry in
    [errors] is tagged with line 1. *)
Theorem leading_blank_line_numbering :
  Str.splitlines (String "010" "frobnicate") = [""; "frobnicate"]
  /\ parse_line 2 "frobnicate" = Failed (UnknownCommand 2 "frobnicate")
  /\ parse_csv init (String "010" "frobnicate")
     = (false, {| commands := []; errors := [UnknownCommand 1 "frobnicate"] |})
  /\ main (String "010" "frobnicate") = Exit1 [UnknownCommand 1 "frobnicate"].
Proof. repeat split; vm_compute; reflexivity. Qed.

(** ** Encoding the commands of the parser *)

Lemma parse_csv_well_formed (self : Assembler) (csv_content : string) :
  Forall well_formed (commands (parse_csv self csv_content).2).
Proof.
  rewrite parse_csv_outcomes. cbv zeta. cbn [snd commands].
  apply Forall_forall. intros cmd Hc.
  apply list_elem_of_omap in Hc as (o & Ho & Hp).
  destruct o; cbn in Hp; simplify_eq. unfold outcomes in Ho.
  apply list_elem_of_fmap in Ho as ([n line] & Ho & _).
  symmetry in Ho. by apply (parse_line_well_formed n line).
Qed.

Lemma fold_to_bytes_ok (cmds : list Command) (data : list Z) :
  Forall well_formed cmds ->
  exists data',
    fold_left
      (fun binary_data cmd =>
         let* data := binary_data in let* encoded := to_bytes cmd in Ok (data ++ encoded))
      cmds (Ok data)
    = Ok data'.
Proof.
  intros H. revert data. induction H as [|cmd cmds Hc _ IH]; intros data.
  - by exists data.
  - cbn [fold_left bind]. destruct (to_bytes_shape cmd Hc) as (bs & -> & _).
    cbn [bind]. apply IH.
Qed.

(** [assemble_to_bytes] after [parse_csv] returns bytes. *)
Lemma assemble_to_bytes_ok (self : Assembler) (csv_content : string) :
  exists data, assemble_to_bytes (parse_csv self csv_content).2 = Ok data.
Proof. apply fold_to_bytes_ok, parse_csv_well_formed. Qed.

(** C6.  For every command that [parse_csv] leaves in [commands],
    [to_bytes] returns bytes (no branch raises, so the branch for an
    unknown opcode is not taken), and the mask of its branch leaves the
    operand as it is. *)
Theorem parsed_commands_encode (self : Assembler) (csv_content : string)
    (cmd : Command) :
  cmd ∈ commands (parse_csv self csv_content).2 ->
  (exists bs, to_bytes cmd = Ok bs)
  /\ (opcode cmd = value LOAD_CONST \/ opcode cmd = value READ_MEM
      \/ opcode cmd = value WRITE_MEM \/ opcode cmd = value BIN_OP)
  /\ (opcode cmd = value LOAD_CONST ->
      exists const, fields cmd !! "const" = Some const
                    /\ Z.land const 0x1FFFFF = const)
  /\ (opcode cmd = value READ_MEM ->
      exists offset, fields cmd !! "offset" = Some offset
                     /\ Z.land offset 0x1FFF = offset)
  /\ (opcode cmd = value WRITE_MEM ->
      exists address, fields cmd !! "address" = Some address
                      /\ Z.land address 0x1FFF = address).
Proof.
  intros Hc.
  pose proof (parse_csv_well_formed self csv_content) as Hwf.
  rewrite Forall_forall in Hwf. specialize (Hwf cmd Hc).
  split.
  { destruct (to_bytes_shape cmd Hwf) as (bs & Hb & _). by eexists. }
  destruct Hwf as [const H|offset H|address H|]; cbn [opcode fields];
    (split; [auto|]); repeat split; try discriminate; intros _.
  - exists const. by rewrite lookup_singleton_eq, mask21_id.
  - exists offset. by rewrite lookup_singleton_eq, mask13_id.
  - exists address. by rewrite lookup_singleton_eq, mask13_id.
Qed.

Lemma parsed_commands_encode_witness :
  exists bs, to_bytes (mkCommand 231 "load_const" {["const" := 147]}) = Ok bs.
Proof.
  apply (parsed_commands_encode init "load,147"
           (mkCommand 231 "load_const" {["const" := 147]})).
  apply list_elem_of_singleton. reflexivity.
Defined.

(** ** The empty program *)

(** C7.  A text with no lines, or with blank and comment lines only, is
    parsed without errors and without commands, and [main] writes the
    empty byte sequence. *)
Theorem empty_program (csv_content : string) :
  Forall (fun line => blank_or_comment line = true) (Str.splitlines csv_content) ->
  parse_csv init csv_content = (true, init)
  /\ assemble_to_bytes (parse_csv init csv_content).2 = Ok []
  /\ main csv_content = Written [].
Proof.
  intros H.
  assert (parse_csv init csv_content = (true, init)) as Hp.
  { rewrite parse_csv_lstrip. cbv zeta.
    apply (Forall_splitlines_lstrip (fun l => blank_or_comment l = true)) in H.
    - pose proof (outcomes_skipped _ 1 H) as Hs.
      by rewrite !(omap_skipped _ _ eq_refl Hs).
    - intros c l Hc. unfold blank_or_comment. by rewrite (strip_space_cons c l Hc). }
  split; [done|]. unfold main. rewrite Hp. by cbn.
Qed.

Lemma empty_program_witness :
  main ("# only a comment" +:+ String "010" ("  " +:+ String "010" "")) = Written [].
Proof.
  apply empty_program. vm_compute. repeat constructor.
Defined.

(** ** No residue of earlier calls *)

(** C10.  [parse_csv] clears [commands] and [errors] first: its flag and the
    object it leaves depend on the text only, whatever calls were made on
    the object before, and so does the result of [assemble_to_bytes]. *)
Theorem parse_csv_no_residue (self1 self2 : Assembler)
    (before1 before2 : list string) (csv_content : string) :
  parse_csv (calls self1 before1) csv_content
  = parse_csv (calls self2 before2) csv_content
  /\ parse_csv (calls self1 before1) csv_content = parse_csv init csv_content
  /\ assemble_to_bytes (parse_csv (calls self1 before1) csv_content).2
     = assemble_to_bytes (parse_csv (calls self2 before2) csv_content).2.
Proof.
  assert (forall self, parse_csv self csv_content = parse_csv init csv_content) as H.
  { intros self. by rewrite !parse_csv_outcomes. }
  by rewrite (H (calls self1 before1)), (H (calls self2 before2)).
Qed.

(** ** Operand errors *)

(** C8 as stated fails for a negative operand: "-5" is an integer literal
    for [int], so the line does not get the invalid-operand error; the
    range test rejects it with the out-of-range error. *)
Lemma negative_operand_out_of_range :
  Str.int "-5" = Some (-5)
  /\ parse_line 1 "load,-5" = Failed (ArgumentError 1 (ConstRange (-5)))
  /\ ~ (exists e, parse_line 1 "load,-5" = Failed e /\ kind e = InvalidOperand).
Proof.
  split; [vm_compute; reflexivity|]. split; [vm_compute; reflexivity|].
  intros (e & He & Hk).
  assert (parse_line 1 "load,-5" = Failed (ArgumentError 1 (ConstRange (-5)))) as H
    by (vm_compute; reflexivity).
  rewrite H in He. by simplify_eq.
Qed.

(** C8, amended.  On a line of LOAD_CONST, READ_MEM or WRITE_MEM: without an
    operand cell, or with an empty one, the line gets the missing-operand
    error; with a cell that is no integer literal for [int] it gets the
    invalid-operand error; with a negative integer it gets the out-of-range
    error.  Each time the entry carries the line number and no command is
    built. *)
Theorem operand_errors (n : nat) (line r0 : string) (rest : list string)
    (t : CommandType) :
  line_row line = Some (r0 :: rest) ->
  MNEMONICS !! Str.lower r0 = Some (value t) ->
  t <> BIN_OP ->
  (rest !! 0%nat = None \/ rest !! 0%nat = Some "" ->
   exists e, parse_line n line = Failed e
             /\ kind e = MissingOperand /\ line_of e = n)
  /\ (forall r1, rest !! 0%nat = Some r1 -> r1 <> "" ->
      Str.int (Str.strip r1) = None ->
      exists e, parse_line n line = Failed e
                /\ kind e = InvalidOperand /\ line_of e = n)
  /\ (forall r1 v, rest !! 0%nat = Some r1 ->
      Str.int (Str.strip r1) = Some v -> v < 0 ->
      exists e, parse_line n line = Failed e
                /\ kind e = OperandOutOfRange /\ line_of e = n).
Proof.
  intros Hrow Hm Ht. rewrite (parse_line_operation n line r0 rest _ Hrow Hm).
  assert ((r0 :: rest) !! 1%nat = rest !! 0%nat) as Hl by done.
  split; [|split].
  - intros Hr.
    destruct t; [| | |done]; unfold parse_operation; cbn [value Z.eqb Pos.eqb];
      rewrite Hl; (destruct Hr as [-> | ->]; cbn [is_empty]; by eexists).
  - intros r1 Hr Hne Hi.
    assert (is_empty r1 = false) as He by (by destruct r1).
    destruct t; [| | |done]; unfold parse_operation; cbn [value Z.eqb Pos.eqb];
      rewrite Hl, Hr, He, Hi; by eexists.
  - intros r1 v Hr Hi Hv.
    pose proof (int_strip_nonempty r1 v Hi) as He.
    assert ((v <? 0) = true) as Hneg by (apply Z.ltb_lt; lia).
    destruct t; [| | |done]; unfold parse_operation; cbn [value Z.eqb Pos.eqb];
      rewrite Hl, Hr, He, Hi, Hneg; cbn [orb]; by eexists.
Qed.

Lemma operand_errors_witness :
  (exists e, parse_line 3 "read" = Failed e
             /\ kind e = MissingOperand /\ line_of e = 3%nat)
  /\ (exists e, parse_line 3 "write, 1x" = Failed e
                /\ kind e = InvalidOperand /\ line_of e = 3%nat).
Proof.
  split.
  - apply (proj1 (operand_errors 3 "read" "read" [] READ_MEM
                    eq_refl eq_refl ltac:(discriminate))).
    left. reflexivity.
  - apply (proj1 (proj2 (operand_errors 3 "write, 1x" "write" ["1x"] WRITE_MEM
                           eq_refl eq_refl ltac:(discriminate))) "1x");
      [reflexivity | discriminate | reflexivity].
Defined.

(** ** Mnemonics *)

Lemma recognized_mnemonics (m : string) :
  is_Some (MNEMONICS !! m) <-> m ∈ ["load"; "read"; "write"; "rotr"].
Proof.
  unfold MNEMONICS. rewrite !lookup_insert_is_Some, lookup_empty, !elem_of_cons, elem_of_nil.
  split.
  - intros H. repeat (destruct H as [<-|[_ H]]; [auto 6|]). by destruct H.
  - intros H.
    destruct (decide ("load" = m)) as [|N1]; [by left|right; split; [done|]].
    destruct (decide ("read" = m)) as [|N2]; [by left|right; split; [done|]].
    destruct (decide ("write" = m)) as [|N3]; [by left|right; split; [done|]].
    destruct (decide ("rotr" = m)) as [|N4]; [by left|right; split; [done|]].
    exfalso. destruct H as [->|[->|[->|[->|[]]]]]; congruence.
Qed.

(** C9 as stated fails for an empty first cell: it matches no mnemonic, and
    the line is skipped without an entry in [errors]. *)
Lemma empty_mnemonic_skipped :
  line_row ",5" = Some [""; "5"]
  /\ MNEMONICS !! Str.lower "" = None
  /\ parse_line 1 ",5" = Skipped
  /\ parse_csv init ",5" = (true, init)
  /\ ~ (exists e, parse_line 1 ",5" = Failed e /\ kind e = UnknownMnemonic).
Proof.
  do 4 (split; [vm_compute; reflexivity|]).
  intros (e & He & _).
  assert (parse_line 1 ",5" = Skipped) as H by (vm_compute; reflexivity).
  rewrite H in He. discriminate.
Qed.

(** C9, amended.  For a line that is neither blank nor a comment, with first
    cell [r0]: every line with the same other cells whose first cell equals
    [r0] up to case is parsed to the same outcome; a non-empty [r0] whose
    lower-case form is no key of [MNEMONICS] (load, read, write, rotr) gets
    the unknown-command error with the line number; an empty [r0] has the
    line skipped. *)
Theorem mnemonic_recognition (n : nat) (line r0 : string) (rest : list string) :
  line_row line = Some (r0 :: rest) ->
  (forall line' r0',
      line_row line' = Some (r0' :: rest) ->
      Str.lower r0' = Str.lower r0 ->
      parse_line n line' = parse_line n line)
  /\ (r0 <> "" -> MNEMONICS !! Str.lower r0 = None ->
      parse_line n line = Failed (UnknownCommand n (Str.lower r0)))
  /\ (r0 = "" -> parse_line n line = Skipped).
Proof.
  intros Hrow. split; [|split].
  - intros line' r0' Hrow' Hlow. unfold parse_line. rewrite Hrow, Hrow'.
    unfold parse_row. rewrite Hlow.
    destruct r0 as [|c r0], r0' as [|c' r0']; try done.
  - intros Hne Hm. unfold parse_line. rewrite Hrow. unfold parse_row.
    destruct r0 as [|c r0]; [done|]. cbn [is_empty]. by rewrite Hm.
  - intros ->. unfold parse_line. by rewrite Hrow.
Qed.

Lemma mnemonic_recognition_witness :
  parse_line 7 "LoAd, 147" = parse_line 7 "load, 147"
  /\ parse_line 7 "frobnicate" = Failed (UnknownCommand 7 "frobnicate").
Proof.
  split.
  - apply (proj1 (mnemonic_recognition 7 "load, 147" "load" ["147"] eq_refl)
             "LoAd, 147" "LoAd"); reflexivity.
  - apply (proj1 (proj2 (mnemonic_recognition 7 "frobnicate" "frobnicate" [] eq_refl))).
    + discriminate.
    + reflexivity.
Defined.

(** * Further properties of [assembler.py] *)

(** ** [to_bytes] on arbitrary commands *)

Lemma land_ones21 (v : Z) : Z.land v 0x1FFFFF = v mod 2 ^ 21.
Proof. change 0x1FFFFF with (Z.ones 21). apply Z.land_ones. lia. Qed.

Lemma land_ones13 (v : Z) : Z.land v 0x1FFF = v mod 2 ^ 13.
Proof. change 0x1FFF with (Z.ones 13). apply Z.land_ones. lia. Qed.

Lemma to_bytes_load_const_any (cmd : Command) (v : Z) :
  opcode cmd = value LOAD_CONST -> fields cmd !! "const" = Some v ->
  to_bytes cmd = Ok (masked_bytes (value LOAD_CONST) 4 21 v).
Proof.
  intros Ho Hf. unfold to_bytes, getitem. rewrite Ho, Hf.
  change (value LOAD_CONST =? value LOAD_CONST) with true. cbv iota. cbn [bind].
  rewrite land_ones21. apply (pack_byte_then Struct.I); [done|].
  pose proof (Z.mod_pos_bound v (2 ^ 21)).
  change (256 ^ Z.of_nat (Struct.size Struct.I)) with 4294967296.
  change (2 ^ 21) with 2097152 in *. lia.
Qed.

Lemma to_bytes_read_mem_any (cmd : Command) (v : Z) :
  opcode cmd = value READ_MEM -> fields cmd !! "offset" = Some v ->
  to_bytes cmd = Ok (masked_bytes (value READ_MEM) 2 13 v).
Proof.
  intros Ho Hf. unfold to_bytes, getitem. rewrite Ho, Hf.
  change (value READ_MEM =? value LOAD_CONST) with false.
  change (value READ_MEM =? value READ_MEM) with true. cbv iota. cbn [bind].
  rewrite land_ones13. apply (pack_byte_then Struct.H); [done|].
  pose proof (Z.mod_pos_bound v (2 ^ 13)).
  change (256 ^ Z.of_nat (Struct.size Struct.H)) with 65536.
  change (2 ^ 13) with 8192 in *. lia.
Qed.

Lemma to_bytes_write_mem_any (cmd : Command) (v : Z) :
  opcode cmd = value WRITE_MEM -> fields cmd !! "address" = Some v ->
  to_bytes cmd = Ok (masked_bytes (value WRITE_MEM) 2 13 v).
Proof.
  intros Ho Hf. unfold to_bytes, getitem. rewrite Ho, Hf.
  change (value WRITE_MEM =? value LOAD_CONST) with false.
  change (value WRITE_MEM =? value READ_MEM) with false.
  change (value WRITE_MEM =? value WRITE_MEM) with true. cbv iota. cbn [bind].
  rewrite land_ones13. apply (pack_byte_then Struct.H); [done|].
  pose proof (Z.mod_pos_bound v (2 ^ 13)).
  change (256 ^ Z.of_nat (Struct.size Struct.H)) with 65536.
  change (2 ^ 13) with 8192 in *. lia.
Qed.

Lemma to_bytes_bin_op_any (cmd : Command) :
  opcode cmd = value BIN_OP -> to_bytes cmd = Ok [value BIN_OP].
Proof. intros Ho. unfold to_bytes. by rewrite Ho. Qed.

(** X1.  [to_bytes] never rejects an operand: whatever integer stands under
    the key of the opcode, negative or beyond the range, the command is
    encoded, with the operand reduced modulo 2^21 (LOAD_CONST) or 2^13
    (READ_MEM, WRITE_MEM); the name and the other keys play no role. *)
Theorem to_bytes_masks (cmd : Command) (v : Z) :
  (opcode cmd = value LOAD_CONST -> fields cmd !! "const" = Some v ->
   to_bytes cmd = Ok (value LOAD_CONST :: Struct.le_bytes 4 (v mod 2 ^ 21)))
  /\ (opcode cmd = value READ_MEM -> fields cmd !! "offset" = Some v ->
      to_bytes cmd = Ok (value READ_MEM :: Struct.le_bytes 2 (v mod 2 ^ 13)))
  /\ (opcode cmd = value WRITE_MEM -> fields cmd !! "address" = Some v ->
      to_bytes cmd = Ok (value WRITE_MEM :: Struct.le_bytes 2 (v mod 2 ^ 13))).
Proof.
  split; [|split].
  - apply to_bytes_load_const_any.
  - apply to_bytes_read_mem_any.
  - apply to_bytes_write_mem_any.
Qed.

Lemma to_bytes_masks_witness :
  to_bytes (mkCommand 231 "anything" {["const" := 2097152 + 147]})
  = Ok [231; 147; 0; 0; 0]
  /\ to_bytes (mkCommand 61 "" (<["offset" := -1]> {["other" := 7]}))
     = Ok [61; 255; 31].
Proof.
  split.
  - apply (proj1 (to_bytes_masks
                    (mkCommand 231 "anything" {["const" := 2097152 + 147]})
                    (2097152 + 147))); reflexivity.
  - apply (proj1 (proj2 (to_bytes_masks
                           (mkCommand 61 "" (<["offset" := -1]> {["other" := 7]}))
                           (-1)))); reflexivity.
Defined.

Lemma eqb_value_cases (op : Z) :
  (op = value LOAD_CONST \/ op = value READ_MEM
   \/ op = value WRITE_MEM \/ op = value BIN_OP)
  \/ ((op =? value LOAD_CONST) = false /\ (op =? value READ_MEM) = false
      /\ (op =? value WRITE_MEM) = false /\ (op =? value BIN_OP) = false).
Proof.
  destruct (op =? value LOAD_CONST) eqn:E1; [apply Z.eqb_eq in E1; auto|].
  destruct (op =? value READ_MEM) eqn:E2; [apply Z.eqb_eq in E2; auto|].
  destruct (op =? value WRITE_MEM) eqn:E3; [apply Z.eqb_eq in E3; auto 6|].
  destruct (op =? value BIN_OP) eqn:E4; [apply Z.eqb_eq in E4; auto 6|].
  by right.
Qed.


(** What [to_bytes] returns, for any command. *)
Lemma to_bytes_returned (cmd : Command) (bs : list Z) :
  to_bytes cmd = Ok bs ->
  head bs = Some (opcode cmd)
  /\ length bs = encoded_length (opcode cmd)
  /\ Forall (fun b => 0 <= b < 256) bs.
Proof.
  intros H.
  destruct (eqb_value_cases (opcode cmd)) as [[Ho|[Ho|[Ho|Ho]]]|(E1 & E2 & E3 & E4)].
  - destruct (fields cmd !! "const") as [v|] eqn:Hf.
    + rewrite (to_bytes_load_const_any cmd v Ho Hf) in H. simplify_eq.
      rewrite Ho. repeat split. constructor; [done|apply le_bytes_range].
    + unfold to_bytes, getitem in H. by rewrite Ho, Hf in H.
  - destruct (fields cmd !! "offset") as [v|] eqn:Hf.
    + rewrite (to_bytes_read_mem_any cmd v Ho Hf) in H. simplify_eq.
      rewrite Ho. repeat split. constructor; [done|apply le_bytes_range].
    + unfold to_bytes, getitem in H. by rewrite Ho, Hf in H.
  - destruct (fields cmd !! "address") as [v|] eqn:Hf.
    + rewrite (to_bytes_write_mem_any cmd v Ho Hf) in H. simplify_eq.
      rewrite Ho. repeat split. constructor; [done|apply le_bytes_range].
    + unfold to_bytes, getitem in H. by rewrite Ho, Hf in H.
  - rewrite (to_bytes_bin_op_any cmd Ho) in H. simplify_eq.
    rewrite Ho. repeat split. by repeat constructor.
  - unfold to_bytes in H. by rewrite E1, E2, E3, E4 in H.
Qed.

(** X3.  Whenever [to_bytes] returns, the first byte is the opcode, the
    length is 5 for LOAD_CONST, 3 for READ_MEM and WRITE_MEM and 1 for
    BIN_OP, and every element is a byte. *)
Theorem to_bytes_ok_shape (cmd : Command) (bs : list Z) :
  to_bytes cmd = Ok bs ->
  head bs = Some (opcode cmd)
  /\ length bs = encoded_length (opcode cmd)
  /\ Forall (fun b => 0 <= b < 256) bs.
Proof. apply to_bytes_returned. Qed.

Lemma to_bytes_ok_shape_witness :
  head [125; 242; 0] = Some 125
  /\ length [125; 242; 0] = encoded_length 125
  /\ Forall (fun b => 0 <= b < 256) [125; 242; 0].
Proof.
  apply (to_bytes_ok_shape (mkCommand 125 "write_mem" {["address" := 242]})).
  reflexivity.
Defined.

(** ** [assemble_to_bytes] as a whole *)

Lemma fold_to_bytes_data (cmds : list Command) (data : list Z) :
  fold_left
    (fun binary_data cmd =>
       let* data := binary_data in let* encoded := to_bytes cmd in Ok (data ++ encoded))
    cmds (Ok data)
  = let* rest := encode_all cmds in Ok (data ++ rest).
Proof.
  revert data. induction cmds as [|cmd cmds IH]; intros data.
  - cbn. by rewrite app_nil_r.
  - cbn [fold_left encode_all bind]. destruct (to_bytes cmd) as [encoded|e].
    + cbn [bind]. rewrite IH. destruct (encode_all cmds); cbn [bind]; [|done].
      by rewrite app_assoc.
    + cbn [bind]. clear IH. induction cmds as [|c cmds IH]; [done|]. apply IH.
Qed.

Lemma assemble_to_bytes_encode_all (self : Assembler) :
  assemble_to_bytes self = encode_all (commands self).
Proof.
  unfold assemble_to_bytes. rewrite fold_to_bytes_data.
  by destruct (encode_all (commands self)).
Qed.

Lemma encode_all_concat (cmds : list Command) (bss : list (list Z)) :
  Forall2 (fun cmd bs => to_bytes cmd = Ok bs) cmds bss ->
  encode_all cmds = Ok (concat bss)
  /\ length (concat bss) = sum_list (encoded_length <$> (opcode <$> cmds)).
Proof.
  induction 1 as [|cmd bs cmds bss Hc _ [IH1 IH2]]; [done|].
  cbn [encode_all concat fmap list_fmap sum_list sum_list_with]. rewrite Hc, IH1. split; [done|].
  rewrite length_app, IH2. by destruct (to_bytes_returned cmd bs Hc) as (_ & -> & _).
Qed.

(** X4.  When every command is encoded, [assemble_to_bytes] returns the
    encodings one after the other in the order of [commands], with nothing
    between them: the length is the sum of the lengths, so a command starts
    at the sum of the lengths of the commands before it. *)
Theorem assemble_to_bytes_concat (self : Assembler) (bss : list (list Z)) :
  Forall2 (fun cmd bs => to_bytes cmd = Ok bs) (commands self) bss ->
  assemble_to_bytes self = Ok (concat bss)
  /\ length (concat bss)
     = sum_list (encoded_length <$> (opcode <$> commands self)).
Proof. rewrite assemble_to_bytes_encode_all. apply encode_all_concat. Qed.

Lemma assemble_to_bytes_concat_witness :
  assemble_to_bytes
    (mkAssembler [mkCommand 145 "bin_op_rotr" ∅;
                  mkCommand 61 "read_mem" {["offset" := 95]}] [])
  = Ok (concat [[145]; [61; 95; 0]])
  /\ length (concat [[145]; [61; 95; 0]]) = sum_list [1; 3]%nat.
Proof.
  apply (assemble_to_bytes_concat
           (mkAssembler [mkCommand 145 "bin_op_rotr" ∅;
                         mkCommand 61 "read_mem" {["offset" := 95]}] [])
           [[145]; [61; 95; 0]]).
  repeat constructor.
Defined.

(** X5.  [assemble_to_bytes] raises what the first failing command raises:
    the commands behind it are not looked at, and no bytes are returned. *)
Theorem assemble_to_bytes_first_failure (before after : list Command)
    (cmd : Command) (errs : list Error) (e : exn) :
  Forall (fun c => exists bs, to_bytes c = Ok bs) before ->
  to_bytes cmd = Raise e ->
  assemble_to_bytes (mkAssembler (before ++ cmd :: after) errs) = Raise e.
Proof.
  intros Hb Hc. rewrite assemble_to_bytes_encode_all. cbn [commands].
  induction Hb as [|c before [bs Hbs] _ IH].
  - cbn. by rewrite Hc.
  - cbn [app encode_all]. rewrite Hbs, IH. done.
Qed.

Lemma assemble_to_bytes_first_failure_witness :
  assemble_to_bytes
    (mkAssembler ([mkCommand 145 "bin_op_rotr" ∅]
                  ++ mkCommand 231 "load_const" ∅ :: [mkCommand 7 "" ∅]) [])
  = Raise (KeyError "const").
Proof.
  apply assemble_to_bytes_first_failure.
  - repeat constructor. by exists [145].
  - reflexivity.
Defined.

Lemma well_formed_prefix (c1 c2 : Command) (b1 b2 r1 r2 : list Z) :
  well_formed c1 -> well_formed c2 ->
  to_bytes c1 = Ok b1 -> to_bytes c2 = Ok b2 ->
  b1 ++ r1 = b2 ++ r2 -> c1 = c2 /\ r1 = r2.
Proof.
  assert (forall n v1 v2,
             0 <= v1 < 256 ^ Z.of_nat n -> 0 <= v2 < 256 ^ Z.of_nat n ->
             Struct.le_bytes n v1 ++ r1 = Struct.le_bytes n v2 ++ r2 ->
             v1 = v2 /\ r1 = r2) as Hinj.
  { intros n v1 v2 H1 H2 H. apply app_inj_1 in H as [H ->]; [|by rewrite !length_le_bytes].
    split; [|done]. apply (f_equal Struct.le_decode) in H.
    by rewrite !le_decode_le_bytes in H. }
  intros [v1 H1|v1 H1|v1 H1|] [v2 H2|v2 H2|v2 H2|];
    rewrite ?to_bytes_load_const, ?to_bytes_read_mem, ?to_bytes_write_mem,
      ?to_bytes_bin_op by done;
    intros [= <-] [= <-] H; cbn [value app] in H;
    pose proof (f_equal head H) as Hh; cbn [head] in Hh; try discriminate Hh;
    apply (f_equal (drop 1)) in H; cbn [drop] in H.
  - assert (v1 = v2 /\ r1 = r2) as [-> ->]; [|done].
    apply (Hinj 4%nat); [| |done];
      change (256 ^ Z.of_nat 4) with 4294967296;
      change 0x1FFFFF with 2097151 in *; lia.
  - assert (v1 = v2 /\ r1 = r2) as [-> ->]; [|done].
    apply (Hinj 2%nat); [| |done];
      change (256 ^ Z.of_nat 2) with 65536; change 0x1FFF with 8191 in *; lia.
  - assert (v1 = v2 /\ r1 = r2) as [-> ->]; [|done].
    apply (Hinj 2%nat); [| |done];
      change (256 ^ Z.of_nat 2) with 65536; change 0x1FFF with 8191 in *; lia.
  - done.
Qed.

Lemma encode_all_injective (cmds1 cmds2 : list Command) (bs : list Z) :
  Forall well_formed cmds1 -> Forall well_formed cmds2 ->
  encode_all cmds1 = Ok bs -> encode_all cmds2 = Ok bs -> cmds1 = cmds2.
Proof.
  intros H1. revert cmds2 bs. induction H1 as [|c1 cmds1 Hc1 _ IH]; intros cmds2 bs H2 E1 E2.
  - destruct H2 as [|c2 cmds2 Hc2 _]; [done|]. cbn in E1. simplify_eq.
    cbn [encode_all] in E2. destruct (to_bytes_shape c2 Hc2) as (b & Hb & _).
    rewrite Hb in E2. cbn [bind] in E2. destruct (encode_all cmds2); by simplify_eq.
  - destruct H2 as [|c2 cmds2 Hc2 H2].
    + cbn in E2. simplify_eq. cbn [encode_all] in E1.
      destruct (to_bytes_shape c1 Hc1) as (b & Hb & _).
      rewrite Hb in E1. cbn [bind] in E1. destruct (encode_all cmds1); by simplify_eq.
    + cbn [encode_all] in E1, E2.
      destruct (to_bytes c1) as [b1|] eqn:Hb1; [|done].
      destruct (to_bytes c2) as [b2|] eqn:Hb2; [|done].
      cbn [bind] in E1, E2.
      destruct (encode_all cmds1) as [r1|] eqn:Hr1; [|done].
      destruct (encode_all cmds2) as [r2|] eqn:Hr2; [|done].
      cbn [bind] in E1, E2. simplify_eq.
      destruct (well_formed_prefix c1 c2 b1 b2 r1 r2) as [-> ->]; try done.
      f_equal. by apply (IH cmds2 r2).
Qed.

(** X6.  The binary determines the program: two texts for which [main]
    writes the same bytes have been parsed into the same list of
    commands. *)
Theorem binary_determines_commands (text1 text2 : string) (bs : list Z) :
  main text1 = Written bs -> main text2 = Written bs ->
  commands (parse_csv init text1).2 = commands (parse_csv init text2).2.
Proof.
  assert (forall text, main text = Written bs ->
                       encode_all (commands (parse_csv init text).2) = Ok bs) as H.
  { intros text. unfold main. destruct (parse_csv init text) as [ok a] eqn:E.
    cbn [snd]. destruct (negb ok); [done|]. rewrite assemble_to_bytes_encode_all.
    destruct (encode_all (commands a)); by intros [= <-]. }
  intros H1 H2. apply H in H1, H2.
  eapply encode_all_injective; [apply parse_csv_well_formed..|done|done].
Qed.

Lemma binary_determines_commands_witness :
  commands (parse_csv init "LOAD , 5").2
  = commands (parse_csv init ("# five" +:+ String "010" "load,+0_5")).2.
Proof.
  apply (binary_determines_commands _ _ [231; 5; 0; 0; 0]); vm_compute; reflexivity.
Defined.


(** ** Cells, names and white space *)

(** X8.  Only the first two cells of a line count: two lines with the same
    first cell and the same second cell (or both without one) are parsed to
    the same outcome, whatever cells follow. *)
Theorem trailing_cells_ignored (n : nat) (line line' r0 : string)
    (cells cells' : list string) :
  line_row line = Some (r0 :: cells) ->
  line_row line' = Some (r0 :: cells') ->
  cells !! 0%nat = cells' !! 0%nat ->
  parse_line n line = parse_line n line'.
Proof.
  intros H1 H2 Hc. unfold parse_line. rewrite H1, H2. unfold parse_row.
  destruct (is_empty r0); [done|].
  destruct (MNEMONICS !! Str.lower r0) as [op|]; [|done].
  unfold parse_operation.
  change ((r0 :: cells) !! 1%nat) with (cells !! 0%nat).
  change ((r0 :: cells') !! 1%nat) with (cells' !! 0%nat).
  by rewrite Hc.
Qed.

Lemma trailing_cells_ignored_witness :
  parse_line 4 "load,5" = parse_line 4 "load, 5 ,junk,,7".
Proof.
  apply (trailing_cells_ignored 4 "load,5" "load, 5 ,junk,,7" "load"
           ["5"] ["5"; "junk"; ""; "7"]); reflexivity.
Defined.

(** X9.  A line whose mnemonic is rotr is parsed into the command without
    operand whatever its other cells hold: they are not read. *)
Theorem rotr_reads_no_operand (n : nat) (line r0 : string) (cells : list string) :
  line_row line = Some (r0 :: cells) ->
  MNEMONICS !! Str.lower r0 = Some (value BIN_OP) ->
  parse_line n line = Parsed (mkCommand (value BIN_OP) "bin_op_rotr" ∅).
Proof.
  intros Hrow Hm. by rewrite (parse_line_operation n line r0 cells _ Hrow Hm).
Qed.

Lemma rotr_reads_no_operand_witness :
  parse_line 2 "RotR, -1, x" = Parsed (mkCommand (value BIN_OP) "bin_op_rotr" ∅).
Proof.
  apply (rotr_reads_no_operand 2 "RotR, -1, x" "RotR" ["-1"; "x"]); reflexivity.
Defined.

(** X10.  The name the parser gives a command is the name that
    [OPCODE_TO_NAME] holds for its opcode. *)
Theorem parsed_name_in_table (n : nat) (line : string) (cmd : Command) :
  parse_line n line = Parsed cmd ->
  OPCODE_TO_NAME !! opcode cmd = Some (name cmd).
Proof.
  intros H. apply parse_line_well_formed in H. by destruct H.
Qed.

Lemma parsed_name_in_table_witness :
  OPCODE_TO_NAME !! 125 = Some "write_mem".
Proof.
  apply (parsed_name_in_table 1 "write,242" (mkCommand 125 "write_mem" {["address" := 242]})).
  reflexivity.
Defined.

Lemma append_cons (c : ascii) (s t : string) :
  String c s +:+ t = String c (s +:+ t).
Proof. reflexivity. Qed.

Lemma append_empty (t : string) : "" +:+ t = t.
Proof. reflexivity. Qed.

Lemma append_empty_r (t : string) : t +:+ "" = t.
Proof. induction t as [|c t IH]; [done|]. by rewrite append_cons, IH. Qed.

Lemma lstrip_app_space (ws s : string) :
  all_space ws = true -> Str.lstrip (ws +:+ s) = Str.lstrip s.
Proof.
  induction ws as [|c ws IH]; [done|]. rewrite append_cons. cbn [all_space Str.lstrip].
  intros H. apply andb_prop in H as [-> H]. by apply IH.
Qed.

Lemma rstrip_all_space (ws : string) : all_space ws = true -> Str.rstrip ws = "".
Proof.
  induction ws as [|c ws IH]; [done|]. cbn [all_space Str.rstrip].
  intros H. apply andb_prop in H as [-> H]. by rewrite IH.
Qed.

Lemma rstrip_app_space (s ws : string) :
  all_space ws = true -> Str.rstrip (s +:+ ws) = Str.rstrip s.
Proof.
  intros H. induction s as [|c s IH].
  - rewrite append_empty. by apply rstrip_all_space.
  - rewrite append_cons. cbn [Str.rstrip]. by rewrite IH.
Qed.

Lemma strip_padding (ws1 ws2 s : string) :
  all_space ws1 = true -> all_space ws2 = true ->
  Str.strip (ws1 +:+ s +:+ ws2) = Str.strip s.
Proof.
  intros H1 H2. unfold Str.strip. rewrite (lstrip_app_space ws1 _ H1).
  rewrite <- !lstrip_rstrip. by rewrite (rstrip_app_space s ws2 H2).
Qed.

(** X11.  White space around a line does not matter: a line between two
    runs of white space characters is parsed as the line itself. *)
Theorem line_padding_ignored (n : nat) (ws1 ws2 line : string) :
  all_space ws1 = true -> all_space ws2 = true ->
  parse_line n (ws1 +:+ line +:+ ws2) = parse_line n line.
Proof. intros H1 H2. apply parse_line_strip. by apply strip_padding. Qed.

Lemma line_padding_ignored_witness :
  parse_line 1 (("  " +:+ String "009" "") +:+ "read,95" +:+ String "013" " ")
  = parse_line 1 "read,95".
Proof. apply line_padding_ignored; reflexivity. Defined.

(** ** Operands written in decimal *)

Lemma digit_char_spec (d : Z) :
  0 <= d < 10 ->
  Str.is_digit (digit_char d) = true /\ Str.digit_value (digit_char d) = d.
Proof.
  intros H.
  assert (d = 0 \/ d = 1 \/ d = 2 \/ d = 3 \/ d = 4 \/ d = 5 \/ d = 6
          \/ d = 7 \/ d = 8 \/ d = 9) as Hd by lia.
  repeat (destruct Hd as [->|Hd]; [by vm_compute|]). by subst.
Qed.

Lemma digit_is_plain (c : ascii) :
  Str.is_digit c = true ->
  Str.isspace c = false /\ Ascii.eqb c "," = false
  /\ Ascii.eqb c "+" = false /\ Ascii.eqb c "-" = false.
Proof. ascii_cases c; vm_compute; intuition congruence. Qed.

Lemma all_digits_app (s1 s2 : string) :
  all_digits s1 = true -> all_digits s2 = true -> all_digits (s1 +:+ s2) = true.
Proof.
  intros H1 H2. induction s1 as [|c s1 IH]; [done|].
  rewrite append_cons. cbn [all_digits] in H1 |- *.
  apply andb_prop in H1 as [-> H1]. by apply IH.
Qed.

Lemma int_digits_app (s1 : string) (a : Z) :
  all_digits s1 = true ->
  exists a', forall s2, Str.int_digits (s1 +:+ s2) a = Str.int_digits s2 a'.
Proof.
  revert a. induction s1 as [|c s1 IH]; intros a H.
  - by exists a.
  - cbn [all_digits] in H. apply andb_prop in H as [Hc H].
    destruct (IH (10 * a + Str.digit_value c) H) as [a' Ha'].
    exists a'. intros s2. rewrite append_cons. cbn [Str.int_digits]. by rewrite Hc.
Qed.

Lemma decimal_all_digits (steps : nat) (n : Z) :
  0 <= n -> all_digits (decimal steps n) = true.
Proof.
  revert n. induction steps as [|steps IH]; intros n Hn; [done|].
  cbn [decimal]. destruct (n <? 10) eqn:E.
  - apply Z.ltb_lt in E. cbn [all_digits].
    by destruct (digit_char_spec n ltac:(lia)) as [-> _].
  - apply all_digits_app.
    + apply IH. apply Z.div_pos; lia.
    + cbn [all_digits].
      by destruct (digit_char_spec (n mod 10) ltac:(apply Z.mod_pos_bound; lia)) as [-> _].
Qed.

Lemma decimal_value (steps : nat) (n : Z) :
  0 <= n < 10 ^ Z.of_nat steps ->
  Str.int_digits (decimal steps n) 0 = Some n.
Proof.
  revert n. induction steps as [|steps IH]; intros n Hn.
  - cbn in Hn |- *. f_equal. lia.
  - cbn [decimal]. destruct (n <? 10) eqn:E.
    + apply Z.ltb_lt in E. cbn [Str.int_digits].
      destruct (digit_char_spec n ltac:(lia)) as [-> ->]. f_equal; lia.
    + apply Z.ltb_ge in E.
      rewrite Nat2Z.inj_succ, Z.pow_succ_r in Hn by lia.
      assert (0 <= n / 10 < 10 ^ Z.of_nat steps) as Hq.
      { split; [apply Z.div_pos; lia | apply Z.div_lt_upper_bound; lia]. }
      destruct (int_digits_app (decimal steps (n / 10)) 0) as [a' Ha'].
      { apply decimal_all_digits. lia. }
      pose proof (Ha' "") as H0. rewrite append_empty_r, IH in H0 by done.
      cbn [Str.int_digits] in H0. injection H0 as <-.
      rewrite Ha'. cbn [Str.int_digits].
      destruct (digit_char_spec (n mod 10) ltac:(apply Z.mod_pos_bound; lia)) as [-> ->].
      f_equal. pose proof (Z.div_mod n 10). lia.
Qed.

Lemma decimal_steps (n : Z) :
  0 <= n -> 0 <= n < 10 ^ Z.of_nat (S (Z.to_nat (Z.log2 n))).
Proof.
  intros Hn. split; [done|].
  rewrite Nat2Z.inj_succ, Z2Nat.id by apply Z.log2_nonneg.
  destruct (Z.eq_dec n 0) as [->|Hz]; [done|].
  pose proof (Z.log2_spec n ltac:(lia)) as [_ H].
  eapply Z.lt_le_trans; [exact H|].
  apply Z.pow_le_mono_l. pose proof (Z.log2_nonneg n). lia.
Qed.

Lemma decimal_cons (steps : nat) (n : Z) :
  0 <= n ->
  exists c t, decimal (S steps) n = String c t /\ Str.is_digit c = true.
Proof.
  intros Hn. pose proof (decimal_all_digits (S steps) n Hn) as Ha.
  destruct (decimal (S steps) n) as [|c t] eqn:E.
  - exfalso. cbn [decimal] in E. destruct (n <? 10); [done|].
    destruct (decimal steps (n / 10)); by rewrite ?append_cons in E.
  - cbn [all_digits] in Ha. apply andb_prop in Ha as [Hc _]. by exists c, t.
Qed.

Lemma int_unsigned_decimal (n : Z) :
  0 <= n ->
  Str.int_unsigned (decimal (S (Z.to_nat (Z.log2 n))) n) = Some n.
Proof.
  intros Hn. pose proof (decimal_value _ n (decimal_steps n Hn)) as Hv.
  destruct (decimal_cons (Z.to_nat (Z.log2 n)) n Hn) as (c & t & E & Hc).
  rewrite E in Hv |- *. cbn [Str.int_unsigned Str.int_digits] in Hv |- *.
  by rewrite Hc in Hv |- *.
Qed.

(** [int] reads what [str] writes. *)
Lemma int_str_int (v : Z) : Str.int (str_int v) = Some v.
Proof.
  unfold str_int. destruct (v <? 0) eqn:E.
  - apply Z.ltb_lt in E. cbn [Str.int]. change (Ascii.eqb "-" "+") with false.
    change (Ascii.eqb "-" "-") with true. cbv iota.
    rewrite int_unsigned_decimal by lia. cbn. f_equal. lia.
  - apply Z.ltb_ge in E. pose proof (int_unsigned_decimal v E) as Hu.
    destruct (decimal_cons (Z.to_nat (Z.log2 v)) v E) as (c & t & Ec & Hc).
    rewrite Ec in Hu |- *. cbn [Str.int].
    by destruct (digit_is_plain c Hc) as (_ & _ & -> & ->).
Qed.

Lemma all_digits_plain (s : string) :
  all_digits s = true -> plain s = true /\ no_space s = true.
Proof.
  induction s as [|c s IH]; [done|]. cbn [all_digits plain no_space]. intros H.
  apply andb_prop in H as [Hc H]. destruct (IH H) as [-> ->].
  unfold plain_char. by destruct (digit_is_plain c Hc) as (-> & -> & _).
Qed.

Lemma str_int_plain (v : Z) :
  plain (str_int v) = true /\ no_space (str_int v) = true
  /\ is_empty (str_int v) = false.
Proof.
  unfold str_int. destruct (v <? 0) eqn:E.
  - apply Z.ltb_lt in E. cbn [plain no_space is_empty].
    destruct (all_digits_plain _ (decimal_all_digits (S (Z.to_nat (Z.log2 (- v)))) (- v)
                                    ltac:(lia))) as [-> ->].
    done.
  - apply Z.ltb_ge in E.
    destruct (all_digits_plain _ (decimal_all_digits (S (Z.to_nat (Z.log2 v))) v E))
      as [-> ->].
    destruct (decimal_cons (Z.to_nat (Z.log2 v)) v E) as (c & t & -> & _). done.
Qed.

Lemma strip_no_space (s : string) : no_space s = true -> Str.strip s = s.
Proof.
  intros H. unfold Str.strip.
  assert (Str.lstrip s = s) as ->.
  { destruct s as [|c s]; [done|]. cbn [no_space] in H. cbn [Str.lstrip].
    apply andb_prop in H as [Hc _]. by destruct (Str.isspace c). }
  induction s as [|c s IH]; [done|]. cbn [no_space] in H.
  apply andb_prop in H as [Hc H]. cbn [Str.rstrip]. rewrite (IH H).
  destruct s; [|done]. by destruct (Str.isspace c).
Qed.

Lemma no_space_app (s1 s2 : string) :
  no_space s1 = true -> no_space s2 = true -> no_space (s1 +:+ s2) = true.
Proof.
  intros H1 H2. induction s1 as [|c s1 IH]; [done|].
  rewrite append_cons. cbn [no_space] in H1 |- *.
  apply andb_prop in H1 as [-> H1]. by apply IH.
Qed.

Lemma split_plain (s : string) : plain s = true -> Str.split s "," = [s].
Proof.
  induction s as [|c s IH]; [done|]. cbn [plain Str.split]. intros H.
  apply andb_prop in H as [Hc H]. unfold plain_char in Hc.
  apply andb_prop in Hc as [_ Hc]. apply negb_true_iff in Hc.
  by rewrite Hc, (IH H).
Qed.

Lemma split_plain_comma (m s : string) :
  plain m = true -> Str.split (m +:+ String "," s) "," = m :: Str.split s ",".
Proof.
  induction m as [|c m IH]; [done|]. rewrite append_cons. cbn [plain Str.split].
  intros H. apply andb_prop in H as [Hc H]. unfold plain_char in Hc.
  apply andb_prop in Hc as [_ Hc]. apply negb_true_iff in Hc.
  by rewrite Hc, (IH H).
Qed.

Lemma plain_no_space (s : string) : plain s = true -> no_space s = true.
Proof.
  induction s as [|c s IH]; [done|]. cbn [plain no_space]. intros H.
  apply andb_prop in H as [Hc H]. unfold plain_char in Hc.
  apply andb_prop in Hc as [-> _]. by apply IH.
Qed.

(** The row of a line made of a mnemonic cell, a comma and an operand
    cell, both without white space and commas. *)
Lemma line_row_two_cells (m s : string) :
  plain m = true -> is_empty m = false -> Str.startswith m "#" = false ->
  plain s = true ->
  line_row (m +:+ String "," s) = Some [m; s].
Proof.
  intros Hm Hne Hc Hs. unfold line_row.
  rewrite strip_no_space.
  2:{ apply no_space_app; [by apply plain_no_space|].
      cbn [no_space]. by rewrite (plain_no_space s Hs). }
  destruct m as [|c m]; [done|]. rewrite append_cons. cbn [is_empty].
  cbn [Str.startswith] in Hc |- *. rewrite Hc.
  rewrite <- append_cons, (split_plain_comma _ s Hm), (split_plain s Hs).
  cbn [fmap list_fmap].
  by rewrite !strip_no_space by by apply plain_no_space.
Qed.

(** The outcome of a line with an operand in decimal notation. *)
Lemma decimal_operand_outcome (n : nat) (v : Z) :
  parse_line n ("load," +:+ str_int v)
  = (if (v <? 0) || (v >? 0x1FFFFF) then Failed (ArgumentError n (ConstRange v))
     else Parsed (mkCommand (value LOAD_CONST) "load_const" {["const" := v]}))
  /\ parse_line n ("read," +:+ str_int v)
     = (if (v <? 0) || (v >? 0x1FFF) then Failed (ArgumentError n (OffsetRange v))
        else Parsed (mkCommand (value READ_MEM) "read_mem" {["offset" := v]}))
  /\ parse_line n ("write," +:+ str_int v)
     = (if (v <? 0) || (v >? 0x1FFF) then Failed (ArgumentError n (AddressRange v))
        else Parsed (mkCommand (value WRITE_MEM) "write_mem" {["address" := v]})).
Proof.
  destruct (str_int_plain v) as (Hp & Hs & He).
  assert (forall m, plain m = true -> is_empty m = false ->
                    Str.startswith m "#" = false ->
                    parse_line n (m +:+ String "," (str_int v))
                    = parse_row n [m; str_int v]) as Hrow.
  { intros m H1 H2 H3. unfold parse_line. by rewrite line_row_two_cells. }
  split; [|split].
  - change ("load," +:+ str_int v) with ("load" +:+ String "," (str_int v)).
    rewrite Hrow by done. unfold parse_row. cbn [is_empty].
    change (MNEMONICS !! Str.lower "load") with (Some (value LOAD_CONST)). cbv iota.
    unfold parse_operation. cbn [lookup list_lookup].
    change (value LOAD_CONST =? value LOAD_CONST) with true. cbv iota.
    rewrite He, (strip_no_space _ Hs), int_str_int. by destruct (_ || _).
  - change ("read," +:+ str_int v) with ("read" +:+ String "," (str_int v)).
    rewrite Hrow by done. unfold parse_row. cbn [is_empty].
    change (MNEMONICS !! Str.lower "read") with (Some (value READ_MEM)). cbv iota.
    unfold parse_operation. cbn [lookup list_lookup].
    change (value READ_MEM =? value LOAD_CONST) with false.
    change (value READ_MEM =? value READ_MEM) with true. cbv iota.
    rewrite He, (strip_no_space _ Hs), int_str_int. by destruct (_ || _).
  - change ("write," +:+ str_int v) with ("write" +:+ String "," (str_int v)).
    rewrite Hrow by done. unfold parse_row. cbn [is_empty].
    change (MNEMONICS !! Str.lower "write") with (Some (value WRITE_MEM)). cbv iota.
    unfold parse_operation. cbn [lookup list_lookup].
    change (value WRITE_MEM =? value LOAD_CONST) with false.
    change (value WRITE_MEM =? value READ_MEM) with false.
    change (value WRITE_MEM =? value WRITE_MEM) with true. cbv iota.
    rewrite He, (strip_no_space _ Hs), int_str_int. by destruct (_ || _).
Qed.



Lemma splitlines_no_space (s : string) :
  no_space s = true -> is_empty s = false -> Str.splitlines s = [s].
Proof.
  induction s as [|c s IH]; [done|]. cbn [no_space]. intros H _.
  apply andb_prop in H as [Hc H]. apply negb_true_iff in Hc.
  assert (Str.is_linebreak c = false) as Hb.
  { destruct (Str.is_linebreak c) eqn:E; [|done].
    apply linebreak_isspace in E. congruence. }
  rewrite (splitlines_nonbreak c s Hb).
  destruct s as [|d s]; [done|]. by rewrite IH.
Qed.

(** A text of one line without white space is parsed as that line with
    the number 1. *)
Lemma main_single_line (text : string) :
  no_space text = true -> is_empty text = false ->
  main text
  = match parse_line 1 text with
    | Skipped => Written []
    | Parsed cmd =>
        match to_bytes cmd with
        | Ok bs => Written bs
        | Raise e => Critical e
        end
    | Failed e => Exit1 [e]
    end.
Proof.
  intros Hs He. unfold main, parse_csv.
  rewrite (strip_no_space text Hs), (splitlines_no_space text Hs He).
  cbn [enumerate fold_left].
  destruct (parse_line 1 text) as [|cmd|e]; cbn; [done| |done].
  unfold assemble_to_bytes. cbn. destruct (to_bytes cmd); cbn; [|done].
  done.
Qed.

(** X13.  From the text to the bytes: the one-line text made of load, read
    or write, a comma and an operand of the range in decimal notation is
    assembled into the opcode byte followed by the operand in 4 bytes
    (load) or 2 bytes (read, write), least significant byte first. *)
Theorem decimal_line_assembled (v : Z) :
  (0 <= v <= 0x1FFFFF ->
   main ("load," +:+ str_int v) = Written (231 :: Struct.le_bytes 4 v))
  /\ (0 <= v <= 0x1FFF ->
      main ("read," +:+ str_int v) = Written (61 :: Struct.le_bytes 2 v))
  /\ (0 <= v <= 0x1FFF ->
      main ("write," +:+ str_int v) = Written (125 :: Struct.le_bytes 2 v)).
Proof.
  destruct (str_int_plain v) as (_ & Hs & _).
  destruct (decimal_operand_outcome 1 v) as (H1 & H2 & H3).
  split; [|split]; intros Hv.
  - rewrite main_single_line; [| |done].
    2:{ change ("load," +:+ str_int v) with ("load," +:+ str_int v).
        apply (no_space_app "load,"); [done|done]. }
    rewrite H1. replace ((v <? 0) || (v >? 0x1FFFFF)) with false.
    2:{ symmetry. apply orb_false_intro; lia. }
    by rewrite to_bytes_load_const.
  - rewrite main_single_line; [| |done].
    2:{ apply (no_space_app "read,"); [done|done]. }
    rewrite H2. replace ((v <? 0) || (v >? 0x1FFF)) with false.
    2:{ symmetry. apply orb_false_intro; lia. }
    by rewrite to_bytes_read_mem.
  - rewrite main_single_line; [| |done].
    2:{ apply (no_space_app "write,"); [done|done]. }
    rewrite H3. replace ((v <? 0) || (v >? 0x1FFF)) with false.
    2:{ symmetry. apply orb_false_intro; lia. }
    by rewrite to_bytes_write_mem.
Qed.

Lemma decimal_line_assembled_witness :
  main ("load," +:+ str_int 147) = Written (231 :: Struct.le_bytes 4 147).
Proof. apply (proj1 (decimal_line_assembled 147)). lia. Defined.

(** ** The intermediate representation *)

Lemma hex_digit_value (d : Z) :
  0 <= d < 16 -> hex_value (upper_char (hex_digit d)) = Some d.
Proof.
  intros H.
  assert (d = 0 \/ d = 1 \/ d = 2 \/ d = 3 \/ d = 4 \/ d = 5 \/ d = 6 \/ d = 7
          \/ d = 8 \/ d = 9 \/ d = 10 \/ d = 11 \/ d = 12 \/ d = 13 \/ d = 14
          \/ d = 15) as Hd by lia.
  repeat (destruct Hd as [->|Hd]; [by vm_compute|]). by subst.
Qed.

(** The text of [.hex().upper()] holds the bytes: read two digits at a
    time it gives them back. *)
Lemma fromhex_upper_hex (bs : list Z) :
  Forall (fun b => 0 <= b < 256) bs -> fromhex (upper (hex bs)) = Some bs.
Proof.
  induction 1 as [|b bs Hb _ IH]; [done|]. cbn [hex upper fromhex].
  rewrite !hex_digit_value, IH.
  - do 2 f_equal. pose proof (Z.div_mod b 16). lia.
  - apply Z.mod_pos_bound. lia.
  - split; [apply Z.div_pos; lia | apply Z.div_lt_upper_bound; lia].
Qed.

Lemma fold_entries (cmds : list Command) (bss : list (list Z)) (entries : list Entry) :
  Forall2 (fun cmd bs => to_bytes cmd = Ok bs) cmds bss ->
  fold_left
    (fun ir cmd =>
       let* entries := ir in
       let* encoded := to_bytes cmd in
       Ok (entries ++ [mkEntry (opcode cmd) (name cmd) (fields cmd)
                         (upper (hex encoded))]))
    cmds (Ok entries)
  = Ok (entries
        ++ zip_with (fun cmd bs => mkEntry (opcode cmd) (name cmd) (fields cmd)
                                     (upper (hex bs))) cmds bss).
Proof.
  intros H. revert entries. induction H as [|cmd bs cmds bss Hc _ IH]; intros entries.
  - cbn. by rewrite app_nil_r.
  - cbn [fold_left bind zip_with]. rewrite Hc. cbn [bind]. rewrite IH.
    by rewrite <- app_assoc.
Qed.

Lemma well_formed_encodings (cmds : list Command) :
  Forall well_formed cmds ->
  exists bss, Forall2 (fun cmd bs => to_bytes cmd = Ok bs) cmds bss.
Proof.
  induction 1 as [|cmd cmds Hc _ [bss IH]]; [by exists []|].
  destruct (to_bytes_shape cmd Hc) as (bs & Hb & _).
  exists ((opcode cmd :: bs) :: bss). by constructor.
Qed.

(** X14.  After [parse_csv], [get_intermediate_representation] returns one
    entry for each command, in order, with the opcode, the name and the
    fields of the command; the hexadecimal texts of the entries, read back
    as bytes and put one after the other, are the bytes that
    [assemble_to_bytes] returns. *)
Theorem intermediate_representation_parsed (self : Assembler) (csv_content : string) :
  exists ir bss,
    get_intermediate_representation (parse_csv self csv_content).2 = Ok ir
    /\ Forall2 (fun cmd e => entry_opcode e = opcode cmd
                             /\ entry_name e = name cmd
                             /\ entry_fields e = fields cmd)
         (commands (parse_csv self csv_content).2) ir
    /\ Forall2 (fun e bs => fromhex (entry_hex_bytes e) = Some bs) ir bss
    /\ assemble_to_bytes (parse_csv self csv_content).2 = Ok (concat bss).
Proof.
  destruct (well_formed_encodings _ (parse_csv_well_formed self csv_content))
    as [bss Hb].
  set (a := (parse_csv self csv_content).2) in *.
  exists (zip_with (fun cmd bs => mkEntry (opcode cmd) (name cmd) (fields cmd)
                                    (upper (hex bs))) (commands a) bss), bss.
  split; [|split; [|split]].
  - unfold get_intermediate_representation. by rewrite (fold_entries _ bss []).
  - induction Hb; constructor; auto.
  - induction Hb as [|cmd bs cmds bss' Hc _ IH]; constructor; [|done].
    cbn [entry_hex_bytes]. apply fromhex_upper_hex.
    by destruct (to_bytes_returned cmd bs Hc) as (_ & _ & ?).
  - rewrite assemble_to_bytes_encode_all. by apply encode_all_concat.
Qed.

(** X15.  [test_specification], which runs four texts through one object,
    prints a mismatch for the first test (the expected bytes are F7 93 00 00,
    the command is encoded as E7 93 00 00 00) and a match for the tests of
    read, write and rotr. *)
Theorem test_specification_answers :
  test_specification = Ok [Some false; Some true; Some true; Some true].
Proof. vm_compute. reflexivity. Qed.

(** ** Witnesses for the lemmas on line numbers *)

Lemma failed_line_recorded_witness :
  UnknownCommand 2 "frobnicate"
    ∈ errors (parse_csv init ("rotr" +:+ String "010" ("frobnicate" +:+ String "010" "load,1"))).2.
Proof.
  apply (failed_line_recorded init
           ("rotr" +:+ String "010" ("frobnicate" +:+ String "010" "load,1"))
           "frobnicate" 1 (UnknownCommand 2 "frobnicate")); reflexivity.
Defined.

Lemma parse_csv_numbering_witness :
  errors (parse_csv init ("rotr" +:+ String "010" (String "010" "load"))).2
  = omap failed
      (outcomes (enumerate (Str.splitlines ("rotr" +:+ String "010" (String "010" "load"))) 1)).
Proof. apply parse_csv_numbering. reflexivity. Defined.

(** * Properties of [assemly.py] *)

(** ** The two encoders *)

Lemma range_test (x hi : Z) :
  0 <= x < hi -> (0 <=? x) && (x <? hi) = true.
Proof. intros H. apply andb_true_intro. split; [apply Z.leb_le | apply Z.ltb_lt]; lia. Qed.

Lemma range_test_not (x hi : Z) :
  ~ 0 <= x < hi -> (0 <=? x) && (x <? hi) = false.
Proof.
  intros H. destruct ((0 <=? x) && (x <? hi)) eqn:E; [|done].
  apply andb_prop in E as [E1 E2]. apply Z.leb_le in E1. apply Z.ltb_lt in E2. lia.
Qed.

Lemma pack_big (c : Struct.fmt) (a x : Z) :
  0 <= a < 256 -> 0 <= x < 256 ^ Z.of_nat (Struct.size c) ->
  Struct.pack Struct.Big [Struct.B; c] [a; x]
  = Ok (a :: rev (Struct.le_bytes (Struct.size c) x)).
Proof.
  intros Ha Hx. cbn [Struct.pack].
  rewrite (range_test a) by done. rewrite (range_test x) by done.
  cbn [bind Struct.field]. rewrite app_nil_r.
  cbn [Struct.size Struct.le_bytes rev app].
  by rewrite Z.mod_small by lia.
Qed.

Lemma pack_big_raises (c : Struct.fmt) (a x : Z) :
  ~ (0 <= a < 256 /\ 0 <= x < 256 ^ Z.of_nat (Struct.size c)) ->
  Struct.pack Struct.Big [Struct.B; c] [a; x] = Raise StructError.
Proof.
  intros H. cbn [Struct.pack].
  change (256 ^ Z.of_nat (Struct.size Struct.B)) with 256.
  destruct ((0 <=? a) && (a <? 256)) eqn:Ea; [|done].
  apply andb_prop in Ea as [E1 E2]. apply Z.leb_le in E1. apply Z.ltb_lt in E2.
  rewrite range_test_not; [done|]. intros Hx. apply H. split; [lia|done].
Qed.

(** X18.  [encode_mem_access] returns the opcode byte and the operand in two
    bytes, most significant first, for every opcode below 256 and operand
    below 65536: the two pairs answered by hand, (61, 95) and (125, 242),
    get what the general branch would give them. *)
Theorem assemly_mem_access_big_endian (opcode operand : Z) :
  0 <= opcode < 256 -> 0 <= operand < 65536 ->
  Assemly.encode_mem_access opcode operand
  = Ok [opcode; operand / 256; operand mod 256].
Proof.
  intros Ho Hv. unfold Assemly.encode_mem_access.
  destruct ((opcode =? 61) && (operand =? 95)) eqn:E1.
  { apply andb_prop in E1 as [E1 E2]. apply Z.eqb_eq in E1, E2. by subst. }
  destruct ((opcode =? 125) && (operand =? 242)) eqn:E2.
  { apply andb_prop in E2 as [E2 E3]. apply Z.eqb_eq in E2, E3. by subst. }
  rewrite (pack_big Struct.H) by done. cbn [bind Struct.size Struct.le_bytes rev app take].
  do 3 f_equal. apply Z.mod_small.
  split; [apply Z.div_pos; lia | apply Z.div_lt_upper_bound; lia].
Qed.

Lemma assemly_mem_access_big_endian_witness :
  Assemly.encode_mem_access 61 4660 = Ok [61; 4660 / 256; 4660 mod 256].
Proof. apply assemly_mem_access_big_endian; lia. Defined.

(** X19.  Outside of the pair answered by hand, (231, 147),
    [encode_load_const] returns the opcode byte and the three high bytes of
    the operand packed in four bytes, most significant first: the low byte of
    the operand is cut off, so two operands that differ in their low byte
    only are encoded alike. *)
Theorem assemly_load_const_drops_low_byte (opcode operand : Z) :
  0 <= opcode < 256 -> 0 <= operand < 2 ^ 32 ->
  ~ (opcode = 231 /\ operand = 147) ->
  Assemly.encode_load_const opcode operand
  = Ok (opcode :: rev (Struct.le_bytes 3 (operand / 256))).
Proof.
  intros Ho Hv Hn. unfold Assemly.encode_load_const.
  destruct ((opcode =? 231) && (operand =? 147)) eqn:E1.
  { apply andb_prop in E1 as [E1 E2]. apply Z.eqb_eq in E1, E2. by destruct Hn. }
  rewrite (pack_big Struct.I) by done. reflexivity.
Qed.

Lemma assemly_load_const_drops_low_byte_witness :
  Assemly.encode_load_const 231 148 = Ok (231 :: rev (Struct.le_bytes 3 (148 / 256)))
  /\ Assemly.encode_load_const 231 255 = Ok (231 :: rev (Struct.le_bytes 3 (255 / 256))).
Proof.
  split; apply assemly_load_const_drops_low_byte; try lia.
Defined.

(** X20.  The two encoders raise exactly when [struct.pack] refuses an
    argument: the opcode is outside 0..255, or the operand is negative or
    needs more than 4 bytes ([encode_load_const]) or 2 bytes
    ([encode_mem_access]).  The operand is not masked. *)
Theorem assemly_encoders_raise (opcode operand : Z) (e : exn) :
  (Assemly.encode_load_const opcode operand = Raise e
   <-> e = StructError /\ ~ (0 <= opcode < 256 /\ 0 <= operand < 2 ^ 32))
  /\ (Assemly.encode_mem_access opcode operand = Raise e
      <-> e = StructError /\ ~ (0 <= opcode < 256 /\ 0 <= operand < 65536)).
Proof.
  split.
  - unfold Assemly.encode_load_const.
    destruct ((opcode =? 231) && (operand =? 147)) eqn:E1.
    { apply andb_prop in E1 as [E1 E2]. apply Z.eqb_eq in E1, E2. subst.
      split; [done|]. intros [_ H]. destruct H. lia. }
    destruct (decide (0 <= opcode < 256 /\ 0 <= operand < 2 ^ 32)) as [[H1 H2]|H].
    + rewrite (pack_big Struct.I) by done. cbn [bind].
      split; [done|]. intros [_ H]. by destruct H.
    + rewrite (pack_big_raises Struct.I) by done. cbn [bind].
      split; [by intros [= <-]|by intros [-> _]].
  - unfold Assemly.encode_mem_access.
    destruct ((opcode =? 61) && (operand =? 95)) eqn:E1.
    { apply andb_prop in E1 as [E1 E2]. apply Z.eqb_eq in E1, E2. subst.
      split; [done|]. intros [_ H]. destruct H. lia. }
    destruct ((opcode =? 125) && (operand =? 242)) eqn:E2.
    { apply andb_prop in E2 as [E2 E3]. apply Z.eqb_eq in E2, E3. subst.
      split; [done|]. intros [_ H]. destruct H. lia. }
    destruct (decide (0 <= opcode < 256 /\ 0 <= operand < 65536)) as [[H1 H2]|H].
    + rewrite (pack_big Struct.H) by done. cbn [bind].
      split; [done|]. intros [_ H]. by destruct H.
    + rewrite (pack_big_raises Struct.H) by done. cbn [bind].
      split; [by intros [= <-]|by intros [-> _]].
Qed.

(** ** [parse_line] of [assemly.py] *)

Lemma lstrip_app_nonspace (a b : string) (c : ascii) :
  Str.isspace c = false ->
  Str.lstrip (a +:+ String c b) = Str.lstrip a +:+ String c b.
Proof.
  intros Hc. induction a as [|d a IH].
  - rewrite !append_empty. cbn [Str.lstrip]. by rewrite Hc.
  - rewrite append_cons. cbn [Str.lstrip]. destruct (Str.isspace d); [done|].
    by rewrite append_cons.
Qed.

Lemma rstrip_cons_nonspace (c : ascii) (t : string) :
  Str.isspace c = false -> Str.rstrip (String c t) = String c (Str.rstrip t).
Proof. intros Hc. cbn [Str.rstrip]. rewrite Hc. by destruct (Str.rstrip t). Qed.

Lemma rstrip_app_keep (a b : string) :
  is_empty (Str.rstrip b) = false -> Str.rstrip (a +:+ b) = a +:+ Str.rstrip b.
Proof.
  intros Hb. induction a as [|d a IH]; [by rewrite !append_empty|].
  rewrite !append_cons. cbn [Str.rstrip]. rewrite IH.
  destruct a as [|d' a]; [|by rewrite append_cons].
  rewrite append_empty. by destruct (Str.rstrip b).
Qed.

Lemma split_app_sep (a b : string) (sep : ascii) :
  AssemlyAssembler.contains a sep = false ->
  Str.split (a +:+ String sep b) sep = a :: Str.split b sep.
Proof.
  induction a as [|d a IH]; intros H.
  - rewrite append_empty. cbn [Str.split]. by rewrite Ascii.eqb_refl.
  - rewrite append_cons. cbn [AssemlyAssembler.contains Str.split] in H |- *.
    apply orb_false_elim in H as [Hd H]. by rewrite Hd, (IH H).
Qed.

Lemma contains_lstrip (s : string) (c : ascii) :
  AssemlyAssembler.contains s c = false ->
  AssemlyAssembler.contains (Str.lstrip s) c = false.
Proof.
  induction s as [|d s IH]; [done|]. cbn [Str.lstrip]. intros H.
  destruct (Str.isspace d); [|done]. apply IH.
  cbn [AssemlyAssembler.contains] in H. by apply orb_false_elim in H as [_ H].
Qed.

Lemma contains_rstrip (s : string) (c : ascii) :
  AssemlyAssembler.contains s c = false ->
  AssemlyAssembler.contains (Str.rstrip s) c = false.
Proof.
  induction s as [|d s IH]; [done|]. cbn [AssemlyAssembler.contains Str.rstrip].
  intros H. apply orb_false_elim in H as [Hd H]. specialize (IH H).
  destruct (Str.rstrip s) as [|a r].
  - destruct (Str.isspace d); [done|]. cbn [AssemlyAssembler.contains]. by rewrite Hd.
  - cbn [AssemlyAssembler.contains] in IH |- *. by rewrite Hd.
Qed.

Lemma contains_app_cons (a b : string) (c : ascii) :
  AssemlyAssembler.contains (a +:+ String c b) c = true.
Proof.
  induction a as [|d a IH].
  - rewrite append_empty. cbn [AssemlyAssembler.contains]. by rewrite Ascii.eqb_refl.
  - rewrite append_cons. cbn [AssemlyAssembler.contains]. rewrite IH. by rewrite orb_true_r.
Qed.

Lemma lstrip_idem (s : string) : Str.lstrip (Str.lstrip s) = Str.lstrip s.
Proof.
  induction s as [|d s IH]; [done|]. cbn [Str.lstrip].
  destruct (Str.isspace d) eqn:E; [done|]. cbn [Str.lstrip]. by rewrite E.
Qed.

(** The stripped text of a line with a comment sign: what stands before
    the sign, stripped on the left, the sign, and the rest stripped on the
    right. *)
Lemma strip_with_comment (code rest : string) :
  Str.strip (code +:+ String "#" rest)
  = Str.lstrip code +:+ String "#" (Str.rstrip rest).
Proof.
  unfold Str.strip. rewrite (lstrip_app_nonspace code rest "#") by done.
  rewrite rstrip_app_keep.
  - by rewrite (rstrip_cons_nonspace "#" rest).
  - by rewrite (rstrip_cons_nonspace "#" rest).
Qed.

(** X21.  In [assemly.py] a comment may follow the instruction on its
    line: what stands after the first [#] of a line is not read, so the
    line is parsed as the text before the sign. *)
Theorem assemly_inline_comment (OPCODES COMMAND_SIZES : gmap string Z)
    (code rest : string) :
  AssemlyAssembler.contains code "#" = false ->
  AssemlyAssembler.parse_line OPCODES COMMAND_SIZES (code +:+ String "#" rest)
  = AssemlyAssembler.parse_line OPCODES COMMAND_SIZES code.
Proof.
  intros H. unfold AssemlyAssembler.parse_line.
  rewrite strip_with_comment, contains_app_cons.
  rewrite (split_app_sep _ _ "#") by by apply contains_lstrip.
  cbn [hd].
  assert (Str.strip (Str.lstrip code) = Str.strip code) as ->.
  { unfold Str.strip. by rewrite lstrip_idem. }
  assert (AssemlyAssembler.contains (Str.strip code) "#" = false) as ->; [|done].
  unfold Str.strip. by apply contains_rstrip, contains_lstrip.
Qed.

Lemma assemly_inline_comment_witness :
  AssemlyAssembler.parse_line {["ROR" := 145]} {["ROR" := 1]}
    (" ROR " +:+ String "#" " rotate # twice")
  = AssemlyAssembler.parse_line {["ROR" := 145]} {["ROR" := 1]} " ROR ".
Proof. apply assemly_inline_comment. reflexivity. Defined.

(** ** [assemble] and [write_binary] of [assemly.py] *)

Lemma assemly_loop_parsed (OPCODES COMMAND_SIZES : gmap string Z)
    (before : list string) (rest : list (nat * string))
    (self : list AssemlyAssembler.Cmd) (start : nat) :
  Forall (fun line =>
            exists r, AssemlyAssembler.parse_line OPCODES COMMAND_SIZES line = inr r)
    before ->
  AssemlyAssembler.assemble_loop OPCODES COMMAND_SIZES self
    (enumerate before start ++ rest)
  = AssemlyAssembler.assemble_loop OPCODES COMMAND_SIZES
      (self ++ assemly_commands_of OPCODES COMMAND_SIZES before) rest.
Proof.
  intros H. revert self start. induction H as [|line before [r Hr] _ IH]; intros self start.
  - cbn. by rewrite app_nil_r.
  - cbn [enumerate app AssemlyAssembler.assemble_loop].
    unfold assemly_commands_of. cbn [omap list_omap]. rewrite Hr.
    fold (assemly_commands_of OPCODES COMMAND_SIZES before).
    destruct r as [command|]; rewrite IH; [|done].
    by rewrite <- app_assoc.
Qed.

Lemma enumerate_app {A} (l1 l2 : list A) (start : nat) :
  enumerate (l1 ++ l2) start
  = enumerate l1 start ++ enumerate l2 (start + length l1).
Proof.
  revert start. induction l1 as [|x l1 IH]; intros start.
  - cbn. by rewrite Nat.add_0_r.
  - cbn [app enumerate length]. rewrite IH. do 3 f_equal. lia.
Qed.

(** X22.  [assemble] of [assemly.py] stops at the first line that raises:
    it returns False for that line, numbered as it stands among the lines
    read, whatever lines follow and whether or not test mode is on; nothing
    is written, and the commands of the lines before stay in the object. *)
Theorem assemly_assemble_stops (OPCODES COMMAND_SIZES : gmap string Z)
    (self : list AssemlyAssembler.Cmd) (before after : list string)
    (bad : string) (e : AssemlyAssembler.Raised) (test_mode : bool) :
  Forall (fun line =>
            exists r, AssemlyAssembler.parse_line OPCODES COMMAND_SIZES line = inr r)
    before ->
  AssemlyAssembler.parse_line OPCODES COMMAND_SIZES bad = inl e ->
  AssemlyAssembler.assemble OPCODES COMMAND_SIZES self (before ++ bad :: after) test_mode
  = (self ++ assemly_commands_of OPCODES COMMAND_SIZES before,
     AssemlyAssembler.ReturnFalse (S (length before)) e).
Proof.
  intros Hb He. unfold AssemlyAssembler.assemble.
  rewrite enumerate_app, (assemly_loop_parsed _ _ before _ self 1 Hb).
  cbn [enumerate AssemlyAssembler.assemble_loop]. by rewrite He.
Qed.

Lemma assemly_assemble_stops_witness :
  AssemlyAssembler.assemble {["ROR" := 145]} {["ROR" := 1]} []
    (["ROR"; "# note"] ++ "ror" :: ["ROR"; "LOAD_CONST,1"]) false
  = ([] ++ assemly_commands_of {["ROR" := 145]} {["ROR" := 1]} ["ROR"; "# note"],
     AssemlyAssembler.ReturnFalse (S (length ["ROR"; "# note"]))
       (AssemlyAssembler.UnknownName "ror")).
Proof.
  apply assemly_assemble_stops.
  - repeat constructor; by eexists.
  - reflexivity.
Defined.

Lemma assemly_fold_data (cmds : list AssemlyAssembler.Cmd) (data : list Z) :
  fold_left
    (fun binary_data cmd =>
       match binary_data with
       | inl c => inl c
       | inr data =>
           match AssemlyAssembler.encode_command cmd with
           | inl c => inl c
           | inr encoded => inr (data ++ encoded)
           end
       end)
    cmds (inr data)
  = match assemly_encode_all cmds with
    | inl c => inl c
    | inr rest => inr (data ++ rest)
    end.
Proof.
  revert data. induction cmds as [|cmd cmds IH]; intros data.
  - cbn. by rewrite app_nil_r.
  - cbn [fold_left assemly_encode_all].
    destruct (AssemlyAssembler.encode_command cmd) as [c|encoded].
    + clear IH. induction cmds as [|c' cmds IH]; [done|]. apply IH.
    + rewrite IH. destruct (assemly_encode_all cmds); [done|].
      by rewrite app_assoc.
Qed.

Lemma write_binary_encode_all (cmds : list AssemlyAssembler.Cmd) :
  AssemlyAssembler.write_binary cmds = assemly_encode_all cmds.
Proof.
  unfold AssemlyAssembler.write_binary. rewrite assemly_fold_data.
  by destruct (assemly_encode_all cmds).
Qed.

Lemma assemly_encode_all_app (cmds1 cmds2 : list AssemlyAssembler.Cmd)
    (b1 b2 : list Z) :
  assemly_encode_all cmds1 = inr b1 -> assemly_encode_all cmds2 = inr b2 ->
  assemly_encode_all (cmds1 ++ cmds2) = inr (b1 ++ b2).
Proof.
  revert b1. induction cmds1 as [|cmd cmds1 IH]; intros b1 H1 H2.
  - cbn in H1. by simplify_eq.
  - cbn [app assemly_encode_all] in H1 |- *.
    destruct (AssemlyAssembler.encode_command cmd) as [|encoded]; [done|].
    destruct (assemly_encode_all cmds1) as [|rest]; [done|]. simplify_eq.
    rewrite (IH rest eq_refl H2). by rewrite app_assoc.
Qed.

(** X23.  [assemble] of [assemly.py] never empties [intermediate_repr]: a
    call on an object that already holds commands appends the commands of
    its lines to them, and [write_binary] writes the bytes of the earlier
    commands again, in front of the bytes of the new ones. *)
Theorem assemly_assemble_accumulates (OPCODES COMMAND_SIZES : gmap string Z)
    (self : list AssemlyAssembler.Cmd) (lines : list string)
    (old new : list Z) :
  Forall (fun line =>
            exists r, AssemlyAssembler.parse_line OPCODES COMMAND_SIZES line = inr r)
    lines ->
  AssemlyAssembler.write_binary self = inr old ->
  AssemlyAssembler.write_binary (assemly_commands_of OPCODES COMMAND_SIZES lines)
  = inr new ->
  AssemlyAssembler.assemble OPCODES COMMAND_SIZES self lines false
  = (self ++ assemly_commands_of OPCODES COMMAND_SIZES lines,
     AssemlyAssembler.ReturnTrue (Some (old ++ new))).
Proof.
  intros Hl Ho Hn. unfold AssemlyAssembler.assemble.
  pose proof (assemly_loop_parsed OPCODES COMMAND_SIZES lines [] self 1 Hl) as H.
  rewrite app_nil_r in H. rewrite H. cbn [AssemlyAssembler.assemble_loop].
  rewrite write_binary_encode_all in *.
  by rewrite (assemly_encode_all_app _ _ old new Ho Hn).
Qed.

Lemma assemly_assemble_accumulates_witness :
  AssemlyAssembler.assemble {["ROR" := 145; "MEM_READ" := 61]}
    {["ROR" := 1; "MEM_READ" := 3]}
    [AssemlyAssembler.mkCmd "ROR" 145 None 1] ["MEM_READ, 258"] false
  = ([AssemlyAssembler.mkCmd "ROR" 145 None 1]
     ++ assemly_commands_of {["ROR" := 145; "MEM_READ" := 61]}
          {["ROR" := 1; "MEM_READ" := 3]} ["MEM_READ, 258"],
     AssemlyAssembler.ReturnTrue (Some ([145] ++ [61; 1; 2]))).
Proof.
  apply assemly_assemble_accumulates.
  - repeat constructor. by eexists.
  - reflexivity.
  - reflexivity.
Defined.

(** X24.  [write_binary] has no branch for other names: a command whose
    name is none of LOAD_CONST, MEM_READ, MEM_WRITE and ROR adds no byte,
    wherever it stands, and no message tells so. *)
Theorem assemly_write_binary_skips (before after : list AssemlyAssembler.Cmd)
    (cmd : AssemlyAssembler.Cmd) :
  AssemlyAssembler.cmd_opcode cmd <> "LOAD_CONST" ->
  AssemlyAssembler.cmd_opcode cmd <> "MEM_READ" ->
  AssemlyAssembler.cmd_opcode cmd <> "MEM_WRITE" ->
  AssemlyAssembler.cmd_opcode cmd <> "ROR" ->
  AssemlyAssembler.write_binary (before ++ cmd :: after)
  = AssemlyAssembler.write_binary (before ++ after).
Proof.
  intros H1 H2 H3 H4. rewrite !write_binary_encode_all.
  assert (AssemlyAssembler.encode_command cmd = inr []) as Hc.
  { unfold AssemlyAssembler.encode_command.
    apply String.eqb_neq in H1, H2, H3, H4. by rewrite H1, H2, H3, H4. }
  induction before as [|c before IH].
  - cbn [app assemly_encode_all]. rewrite Hc.
    by destruct (assemly_encode_all after).
  - cbn [app assemly_encode_all]. by rewrite IH.
Qed.

Lemma assemly_write_binary_skips_witness :
  AssemlyAssembler.write_binary
    ([AssemlyAssembler.mkCmd "ROR" 145 None 1]
     ++ AssemlyAssembler.mkCmd "READ_MEM" 61 (Some 95) 3
     :: [AssemlyAssembler.mkCmd "ROR" 145 None 1])
  = AssemlyAssembler.write_binary
      ([AssemlyAssembler.mkCmd "ROR" 145 None 1]
       ++ [AssemlyAssembler.mkCmd "ROR" 145 None 1]).
Proof. apply assemly_write_binary_skips; discriminate. Defined.







